(** * kwartz_dashboard: content classification, CSV parsing, response-path
      picking, stale-fetch discard and debounced layout persistence

    A shallow embedding of the TypeScript front end
    (components/HtmlWidget.tsx, components/WidgetConfigModal.tsx,
    components/Dashboard.tsx and api/widgets.ts) together with the
    properties its design document states about it.

    Conventions of the embedding.
    - A JavaScript string is a [string]: a sequence of code units, each below
      256 (the Latin-1 range). Case mapping and white space are the ones
      ECMAScript gives to these code units.
    - [undefined] is [None] in an [option]; [null] is a constructor of its own
      where the source distinguishes the two.
    - React state is a record; a handler is a function from the state before to
      the state after it ran. *)

From Stdlib Require Import List Ascii String ZArith Lia Bool Arith.
From Stdlib Require Import DecimalString DecimalNat.
Import ListNotations.

Local Open Scope list_scope.
Local Open Scope string_scope.
Local Open Scope nat_scope.

(* ================================================================== *)
(** * JavaScript string primitives *)
(* ================================================================== *)

Module Js.

(** The characters the source names. *)
Definition LF : ascii := "010"%char.
Definition CR : ascii := "013"%char.
Definition DQUOTE : ascii := "034"%char.
Definition COMMA : ascii := ","%char.
Definition DOT : ascii := "."%char.
Definition QMARK : ascii := "?"%char.

Definition code (c : ascii) : nat := nat_of_ascii c.

(** [WhiteSpace] and [LineTerminator] of ECMAScript below code unit 256:
    TAB, LF, VT, FF, CR, SP and NBSP. *)
Definition isWhiteSpace (c : ascii) : bool :=
  let n := code c in
  ((9 <=? n) && (n <=? 13)) || (n =? 32) || (n =? 160).

(** [LineTerminator] below 256, the characters a regular expression's [.]
    refuses. *)
Definition isLineTerminator (c : ascii) : bool :=
  let n := code c in (n =? 10) || (n =? 13).

Definition isDigit (c : ascii) : bool :=
  let n := code c in (48 <=? n) && (n <=? 57).

Definition isAsciiLetter (c : ascii) : bool :=
  let n := code c in
  ((65 <=? n) && (n <=? 90)) || ((97 <=? n) && (n <=? 122)).

(** [String.prototype.toLowerCase] on one code unit below 256: A-Z and the
    Latin-1 capitals (U+00C0-U+00DE without the multiplication sign) move up
    by 32, everything else stays. *)
Definition lowerChar (c : ascii) : ascii :=
  let n := code c in
  if ((65 <=? n) && (n <=? 90))
     || ((192 <=? n) && (n <=? 222) && negb (n =? 215))
  then ascii_of_nat (n + 32)
  else c.

Fixpoint toLowerCase (s : string) : string :=
  match s with
  | EmptyString => EmptyString
  | String c s' => String (lowerChar c) (toLowerCase s')
  end.

(** [s.startsWith(p)] *)
Fixpoint startsWith (s p : string) : bool :=
  match p, s with
  | EmptyString, _ => true
  | String _ _, EmptyString => false
  | String a p', String b s' => Ascii.eqb a b && startsWith s' p'
  end.

(** [s.endsWith(p)]: some suffix of [s] is [p]. *)
Fixpoint endsWith (s p : string) : bool :=
  String.eqb s p ||
  match s with
  | EmptyString => false
  | String _ s' => endsWith s' p
  end.

Fixpoint trimStart (s : string) : string :=
  match s with
  | EmptyString => EmptyString
  | String c s' => if isWhiteSpace c then trimStart s' else s
  end.

Fixpoint trimEnd (s : string) : string :=
  match s with
  | EmptyString => EmptyString
  | String c s' =>
      match trimEnd s' with
      | EmptyString => if isWhiteSpace c then EmptyString else String c EmptyString
      | r => String c r
      end
  end.

(** [s.trim()] *)
Definition trim (s : string) : string := trimEnd (trimStart s).

(** [s.split(sep)] for a separator of one character. The result always has
    at least one element: the empty string splits into one empty piece. *)
Fixpoint split (sep : ascii) (s : string) : list string :=
  match s with
  | EmptyString => [EmptyString]
  | String c s' =>
      if Ascii.eqb c sep then EmptyString :: split sep s'
      else match split sep s' with
           | h :: t => String c h :: t
           | [] => [String c EmptyString]
           end
  end.

(** [a.slice(0, n)] *)
Definition slice0 {A} (n : nat) (a : list A) : list A := firstn n a.

(** [(s.match(/c/g) || []).length]: the number of occurrences of [c]. *)
Fixpoint countChar (c : ascii) (s : string) : nat :=
  match s with
  | EmptyString => 0
  | String d s' => (if Ascii.eqb d c then 1 else 0) + countChar c s'
  end.

(** A string is truthy when it is not empty. *)
Definition truthy (s : string) : bool :=
  match s with EmptyString => false | _ => true end.

(** [a.every(p)] and [a.some(p)] *)
Definition every {A} (p : A -> bool) (a : list A) : bool := forallb p a.
Definition some {A} (p : A -> bool) (a : list A) : bool := existsb p a.

(** Does character [c] occur in [s]. *)
Fixpoint occurs (c : ascii) (s : string) : bool :=
  match s with
  | EmptyString => false
  | String d s' => Ascii.eqb d c || occurs c s'
  end.

End Js.

(* ================================================================== *)
(** * Regular expressions, as far as the classifier uses them *)
(* ================================================================== *)

Module Regex.

(** A pattern over character classes. *)
Inductive re : Type :=
| Void : re
| Eps : re
| Class : (ascii -> bool) -> re
| Seq : re -> re -> re
| Alt : re -> re -> re
| Star : re -> re.

Fixpoint nullable (r : re) : bool :=
  match r with
  | Void => false
  | Eps => true
  | Class _ => false
  | Seq a b => nullable a && nullable b
  | Alt a b => nullable a || nullable b
  | Star _ => true
  end.

(** Brzozowski derivative: what is left of [r] after reading [c]. *)
Fixpoint deriv (c : ascii) (r : re) : re :=
  match r with
  | Void => Void
  | Eps => Void
  | Class p => if p c then Eps else Void
  | Seq a b =>
      if nullable a then Alt (Seq (deriv c a) b) (deriv c b)
      else Seq (deriv c a) b
  | Alt a b => Alt (deriv c a) (deriv c b)
  | Star a => Seq (deriv c a) (Star a)
  end.

(** [/^r/.test(s)]: some prefix of [s] matches [r]. *)
Fixpoint testAt (r : re) (s : string) : bool :=
  nullable r ||
  match s with
  | EmptyString => false
  | String c s' => testAt (deriv c r) s'
  end.

(** [/r/.test(s)]: a match may start anywhere. *)
Fixpoint test (r : re) (s : string) : bool :=
  testAt r s ||
  match s with
  | EmptyString => false
  | String _ s' => test r s'
  end.

Definition chr (c : ascii) : re := Class (Ascii.eqb c).
Definition oneOf (s : string) : re := Class (fun c => Js.occurs c s).
(** [.] *)
Definition dot : re := Class (fun c => negb (Js.isLineTerminator c)).
(** [[\s\S]] *)
Definition any : re := Class (fun _ => true).
(** [\d] *)
Definition digit : re := Class Js.isDigit.
(** [r+] *)
Definition plus (r : re) : re := Seq r (Star r).

Fixpoint lit (s : string) : re :=
  match s with
  | EmptyString => Eps
  | String c s' => Seq (chr c) (lit s')
  end.

End Regex.

(* ================================================================== *)
(** * JSON values, as [response.json()] and [JSON.parse] produce them *)
(* ================================================================== *)

Module Json.
Import Js.

#[local] Set Warnings "-register-all".

(** A number is kept as an integer: the code only ever asks whether a
    number is zero (truthiness) and what [typeof] says of it. An object
    is the list of its own entries in [Object.entries] order. *)
Inductive json : Type :=
| JNull : json
| JBool : bool -> json
| JNumber : Z -> json
| JString : string -> json
| JArray : list json -> json
| JObject : list (string * json) -> json.

(** A variable of type [unknown] holding a JSON value or [undefined]. *)
Definition value : Type := option json.

(** [!!v] *)
Definition truthyValue (v : value) : bool :=
  match v with
  | None => false
  | Some JNull => false
  | Some (JBool b) => b
  | Some (JNumber n) => negb (Z.eqb n 0)
  | Some (JString s) => truthy s
  | Some (JArray _) => true
  | Some (JObject _) => true
  end.

(** [typeof v === 'object'] *)
Definition typeofObject (v : value) : bool :=
  match v with
  | Some JNull | Some (JArray _) | Some (JObject _) => true
  | _ => false
  end.

(** [Array.isArray(v)] *)
Definition isArray (v : value) : bool :=
  match v with Some (JArray _) => true | _ => false end.

Fixpoint lookup (key : string) (entries : list (string * json)) : value :=
  match entries with
  | [] => None
  | (k, v) :: rest => if String.eqb k key then Some v else lookup key rest
  end.

(** [v[key]] for a string key. A key the object does not own reads
    [undefined]: what [Object.prototype] would answer instead is a function
    or [Object.prototype] itself, never a string, and no traversal of
    [extractValueFromPath] gets from either to a string. *)
Definition getProp (v : value) (key : string) : value :=
  match v with
  | Some (JObject entries) => lookup key entries
  | _ => None
  end.

(** [v[index]] for a number; outside the array it reads [undefined]. *)
Definition getIndex (v : value) (index : Z) : value :=
  match v with
  | Some (JArray items) =>
      if (index <? 0)%Z then None else nth_error items (Z.to_nat index)
  | _ => None
  end.

Definition digitValue (c : ascii) : Z := Z.of_nat (code c - 48).

(** The longest run of decimal digits at the head of [s], read as a
    number; [acc] is [None] until the first digit was seen. *)
Fixpoint parseDigits (s : string) (acc : option Z) : option Z :=
  match s with
  | EmptyString => acc
  | String c s' =>
      if isDigit c
      then parseDigits s'
             (Some (10 * match acc with Some a => a | None => 0 end
                    + digitValue c)%Z)
      else acc
  end.

(** [parseInt(s, 10)]; [None] is [NaN]. Leading white space is skipped,
    one sign is read, then the digits; whatever follows them is ignored.
    The value is exact, where JavaScript rounds above 2^53: an array has
    fewer than 2^32 elements, so both miss it there. *)
Definition parseInt (s : string) : option Z :=
  match trimStart s with
  | String "-" r => option_map Z.opp (parseDigits r None)
  | String "+" r => parseDigits r None
  | r => parseDigits r None
  end.

End Json.

(* ================================================================== *)
(** * api/widgets.ts: the records exchanged with the backend *)
(* ================================================================== *)

Module Api.

Record Layout : Type := mkLayout {
  x : Z; y : Z; w : Z; h : Z; minW : Z; minH : Z
}.

Record Widget : Type := mkWidget {
  id : string;
  name : string;
  api_endpoint : string;
  api_key_masked : string;
  api_key_header : string;
  request_body : string;
  response_url_path : string;
  content_url : string;
  layout : Layout;
  enabled : bool;
  created_at : string;
  updated_at : string
}.

(** An optional field ([f?:]) is an [option]; [None] is a field that is
    not there. *)
Record WidgetCreate : Type := mkWidgetCreate {
  wc_name : string;
  wc_api_endpoint : string;
  wc_api_key : option string;
  wc_api_key_header : option string;
  wc_request_body : option string;
  wc_response_url_path : string;
  wc_content_url : string;
  wc_layout : option Layout
}.

Record WidgetUpdate : Type := mkWidgetUpdate {
  wu_name : option string;
  wu_api_endpoint : option string;
  wu_api_key : option string;
  wu_api_key_header : option string;
  wu_request_body : option string;
  wu_response_url_path : option string;
  wu_content_url : option string;
  wu_layout : option Layout;
  wu_enabled : option bool
}.

Record WidgetContent : Type := mkWidgetContent {
  wcn_id : string;
  wcn_name : string;
  wcn_content_url : option string;
  wcn_html_content : option string;
  wcn_error : option string
}.

(** [TestApiResult], as [response.json()] gives it. [data] is [unknown]: a
    JSON value, or [undefined] ([None]) when the body has no [data]. An
    [error] that is [null] or not there is [None]. *)
Record TestApiResult : Type := mkTestApiResult {
  tar_data : Json.value;
  tar_error : option string
}.

(** ** The calls *)

(** How [fetch] and [response.json()] end for one request: [fetch] rejects
    with a [TypeError] (no connection), or a response arrives, with its
    status and a body that decodes to the expected shape or makes
    [response.json()] throw an error with a message. *)
Inductive Reply (A : Type) : Type :=
| Unreachable : string -> Reply A
| Answered : nat -> A + string -> Reply A.
Arguments Unreachable {A} _.
Arguments Answered {A} _ _.

(** How an [async] function ends: with a value, or with a thrown value, of
    which the [message] is kept when it is an [Error]. *)
Inductive Promise (A : Type) : Type :=
| Resolved : A -> Promise A
| Threw : option string -> Promise A.
Arguments Resolved {A} _.
Arguments Threw {A} _.

(** [response.ok] *)
Definition ok (status : nat) : bool := (200 <=? status) && (status <=? 299).

(** [`${response.status}`] *)
Definition statusString (status : nat) : string :=
  NilEmpty.string_of_uint (Nat.to_uint status).

(** [fetchWidgetContent(id)], given how the request ends. *)
Definition fetchWidgetContent (reply : Reply WidgetContent)
  : Promise WidgetContent :=
  match reply with
  | Unreachable message => Threw (Some message)
  | Answered status body =>
      if negb (ok status)
      then Threw (Some ("Failed to fetch widget content: " ++ statusString status))
      else match body with
           | inl result => Resolved result
           | inr message => Threw (Some message)
           end
  end.

(** The object [testWidgetApi] sends; [JSON.stringify] leaves out a field
    that is [undefined]. *)
Record TestApiBody : Type := mkTestApiBody {
  tb_api_endpoint : string;
  tb_api_key : option string;
  tb_api_key_header : string;
  tb_request_body : option string
}.

(** The body of the request of
    [testWidgetApi(apiEndpoint, apiKey, apiKeyHeader, requestBody)]. *)
Definition testWidgetApiBody (apiEndpoint : string) (apiKey : option string)
  (apiKeyHeader : option string) (requestBody : option string) : TestApiBody :=
  mkTestApiBody apiEndpoint apiKey
    (match apiKeyHeader with
     | Some header => if Js.truthy header then header else "X-API-Key"
     | None => "X-API-Key"
     end)
    requestBody.

(** [testWidgetApi(...)], given how the request ends. *)
Definition testWidgetApi (reply : Reply TestApiResult) : Promise TestApiResult :=
  match reply with
  | Unreachable message => Threw (Some message)
  | Answered status body =>
      if negb (ok status)
      then Threw (Some ("Failed to test API: " ++ statusString status))
      else match body with
           | inl result => Resolved result
           | inr message => Threw (Some message)
           end
  end.

End Api.

(* ================================================================== *)
(** * components/HtmlWidget.tsx: classification and CSV parsing *)
(* ================================================================== *)

(** The file holds the component in two versions; the embedding follows the
    later one, which knows the content type [image]. *)

Module HtmlWidget.
Import Js Api.

(** [type ContentType = 'html' | 'markdown' | 'csv' | 'image' | 'unknown'] *)
Inductive ContentType : Type := html | markdown | csv | image | unknown.

Definition IMAGE_EXTENSIONS : list string :=
  [".png"; ".jpg"; ".jpeg"; ".gif"; ".webp"; ".svg"; ".bmp"; ".ico"].

(** [url.toLowerCase().split('?')[0]] *)
Definition stripQuery (url : string) : string :=
  hd EmptyString (split QMARK (toLowerCase url)).

Definition isImageUrl (url : string) : bool :=
  let lowerUrl := stripQuery url in
  some (fun ext => endsWith lowerUrl ext) IMAGE_EXTENSIONS.

(** The patterns of the markdown and HTML tests. *)
Definition reBold : Regex.re := Regex.Seq (Regex.lit "**")
                            (Regex.Seq (Regex.Star Regex.dot) (Regex.lit "**")).
Definition reBullet : Regex.re := Regex.Seq (Regex.oneOf "-*+") (Regex.chr " ").
Definition reOrdered : Regex.re := Regex.Seq (Regex.plus Regex.digit) (Regex.lit ". ").
Definition reLink : Regex.re :=
  Regex.Seq (Regex.chr "[")
    (Regex.Seq (Regex.Star Regex.dot)
       (Regex.Seq (Regex.lit "](")
          (Regex.Seq (Regex.Star Regex.dot) (Regex.chr ")")))).
Definition reFence : Regex.re := Regex.lit "```".
Definition reQuote : Regex.re := Regex.chr ">".
Definition reTag : Regex.re :=
  Regex.Seq (Regex.chr "<")
    (Regex.Seq (Regex.Class isAsciiLetter)
       (Regex.Seq (Regex.Star Regex.any) (Regex.chr ">"))).

(** [detectContentType(content, url?)]; an absent [url] is [None]. The
    checks on the content are bound first, as [byContent]: every way out of
    the checks on the URL that returns nothing falls through to them.
    [commasPerLine[0]] is the head of a list that is never empty. *)
Definition detectContentType (content : string) (url : option string)
  : ContentType :=
  let byContent :=
    let trimmed := trim content in
    if startsWith trimmed "<!DOCTYPE" || startsWith trimmed "<!doctype"
       || startsWith trimmed "<html" || startsWith trimmed "<HTML"
    then html
    else
      let lines := slice0 5 (split LF trimmed) in
      let commasPerLine := map (countChar COMMA) lines in
      let allSameCommas :=
        every (fun c => (c =? hd 0 commasPerLine) && (0 <? c)) commasPerLine in
      if (2 <=? List.length lines) && (allSameCommas && (1 <=? hd 0 commasPerLine))
      then csv
      else if startsWith trimmed "#"
              || Regex.testAt reBold trimmed
              || Regex.testAt reBullet trimmed
              || Regex.testAt reOrdered trimmed
              || Regex.test reLink trimmed
              || Regex.testAt reFence trimmed
              || Regex.testAt reQuote trimmed
      then markdown
      else if Regex.test reTag trimmed then html
      else markdown
  in
  match url with
  | Some u =>
      if truthy u then
        let lowerUrl := stripQuery u in
        if some (fun ext => endsWith lowerUrl ext) IMAGE_EXTENSIONS then image
        else if endsWith lowerUrl ".md" || endsWith lowerUrl ".markdown" then markdown
        else if endsWith lowerUrl ".csv" then csv
        else if endsWith lowerUrl ".html" || endsWith lowerUrl ".htm" then html
        else byContent
      else byContent
  | None => byContent
  end.

(** The body of the [for] loop of [parseCSV] over one line, as a recursion
    on what is left of the line. [line[i + 1]] is the head of the rest. *)
Fixpoint parseLine (line current : string) (inQuotes : bool)
  (result : list string) {struct line} : list string :=
  match line with
  | EmptyString => (result ++ [trim current])%list
  | String char rest =>
      if Ascii.eqb char DQUOTE then
        match inQuotes, rest with
        | true, String next rest' =>
            if Ascii.eqb next DQUOTE
            then parseLine rest' (current ++ String DQUOTE EmptyString) inQuotes result
            else parseLine rest current (negb inQuotes) result
        | _, _ => parseLine rest current (negb inQuotes) result
        end
      else if Ascii.eqb char COMMA && negb inQuotes then
        parseLine rest EmptyString inQuotes (result ++ [trim current])%list
      else
        parseLine rest (current ++ String char EmptyString) inQuotes result
  end.

(** [parseCSV(content)] *)
Definition parseCSV (content : string) : list (list string) :=
  let lines := split LF (trim content) in
  map (fun line => parseLine line EmptyString false []) lines.

(** ** The component: its state and the effect that loads the content *)

(** The [useState] cells of [HtmlWidget]. *)
Record View : Type := mkView {
  content : option string;
  contentUrl : option string;
  contentType : ContentType;
  error : option string;
  loading : bool
}.

(** How [await fetchWidgetContent(widgetId)] ends: with the decoded body, or
    with a thrown value, whose [message] is kept when it is an [Error]. *)
Inductive Outcome : Type :=
| Fulfilled : WidgetContent -> Outcome
| Rejected : option string -> Outcome.

(** Truthiness of a [string | null]. *)
Definition truthyOpt (o : option string) : bool :=
  match o with Some s => truthy s | None => false end.

(** [o || undefined] *)
Definition orUndefined (o : option string) : option string :=
  if truthyOpt o then o else None.

(** The [try] block of [loadContent] after the [await], for a run that is
    not cancelled. *)
Definition onFulfilled (result : WidgetContent) (v : View) : View :=
  if truthyOpt (wcn_error result) then
    mkView None None (contentType v) (wcn_error result) (loading v)
  else if truthyOpt (wcn_content_url result)
          && isImageUrl (match wcn_content_url result with
                         | Some u => u | None => EmptyString end) then
    mkView None (wcn_content_url result) image None (loading v)
  else if truthyOpt (wcn_html_content result) then
    let html_content :=
      match wcn_html_content result with Some c => c | None => EmptyString end in
    mkView (wcn_html_content result) (wcn_content_url result)
      (detectContentType html_content (orUndefined (wcn_content_url result)))
      None (loading v)
  else
    mkView None None (contentType v) (Some "No content received") (loading v).

(** The [catch] block for a run that is not cancelled. *)
Definition onRejected (err : option string) (v : View) : View :=
  mkView None None (contentType v)
    (Some (match err with Some message => message
                        | None => "Failed to load content" end))
    (loading v).

Definition setLoading (b : bool) (v : View) : View :=
  mkView (content v) (contentUrl v) (contentType v) (error v) b.

(** What a run of [loadContent] that is not cancelled does after its
    [await]: [try] or [catch], then [finally]. *)
Definition complete (o : Outcome) (v : View) : View :=
  setLoading false
    (match o with
     | Fulfilled result => onFulfilled result v
     | Rejected err => onRejected err v
     end).

(** A mounted component: its state, the [cancelled] variable of every run
    of the effect so far (run [n] owns element [n]) and the run whose
    cleanup React still holds. *)
Record Instance : Type := mkInstance {
  view : View;
  cancelled : list bool;
  active : option nat
}.

Fixpoint setFlag (n : nat) (l : list bool) : list bool :=
  match n, l with
  | _, [] => []
  | O, _ :: l' => true :: l'
  | S n', b :: l' => b :: setFlag n' l'
  end.

(** The cleanup of the effect: [cancelled = true] for the run it closes
    over. *)
Definition cleanup (inst : Instance) : Instance :=
  match active inst with
  | Some n => mkInstance (view inst) (setFlag n (cancelled inst)) None
  | None => inst
  end.

(** React runs the effect (on mount, on a changed [widgetId], on a
    re-mount that keeps the state): first the cleanup of the run before,
    then the body, which declares a fresh [cancelled = false] and calls
    [loadContent] up to its [await]. The request of the new run is in
    flight afterwards; its number is the position of its flag. *)
Definition runEffect (inst : Instance) : Instance :=
  let inst1 := cleanup inst in
  mkInstance
    (mkView (content (view inst1)) (contentUrl (view inst1))
       (contentType (view inst1)) None true)
    (cancelled inst1 ++ [false])%list
    (Some (List.length (cancelled inst1))).

(** The request of run [n] ends with [o]: [loadContent] resumes, and
    returns at once when its [cancelled] is set. *)
Definition settle (n : nat) (o : Outcome) (inst : Instance) : Instance :=
  if nth n (cancelled inst) true then inst
  else mkInstance (complete o (view inst)) (cancelled inst) (active inst).

(** The component as mounted, before its first effect ran. *)
Definition mounted : Instance :=
  mkInstance (mkView None None unknown None true) [] None.

(** [await fetchWidgetContent(widgetId)] inside [loadContent]. *)
Definition awaited (p : Promise WidgetContent) : Outcome :=
  match p with
  | Resolved result => Fulfilled result
  | Threw err => Rejected err
  end.

(** ** What the component renders *)

(** [CSVTable({data})]: nothing for a table without rows, else the header
    cells [data[0]] and the body rows [data.slice(1)]. *)
Definition CSVTable (data : list (list string))
  : option (list string * list (list string)) :=
  match data with
  | [] => None
  | headers :: rows => Some (headers, rows)
  end.

(** The element [renderContent] returns. *)
Inductive Element : Type :=
| ImageContent : string -> string -> Element
| CsvContent : option (list string * list (list string)) -> Element
| MarkdownContent : string -> Element
| HtmlContent : string -> string -> Element.

(** [renderContent()]; [name] is the prop. *)
Definition renderContent (v : View) (name : string) : option Element :=
  match contentType v with
  | image =>
      match contentUrl v with
      | Some url => if truthy url then Some (ImageContent url name) else None
      | None => None
      end
  | csv =>
      match content v with
      | Some c => if truthy c then Some (CsvContent (CSVTable (parseCSV c))) else None
      | None => None
      end
  | markdown =>
      match content v with
      | Some c => if truthy c then Some (MarkdownContent c) else None
      | None => None
      end
  | html | unknown =>
      match content v with
      | Some c => if truthy c then Some (HtmlContent c name) else None
      | None => None
      end
  end.

(** What is under the header of the widget. *)
Inductive Body : Type :=
| Loading : Body
| ErrorBox : string -> Body
| Content : option Element -> Body.

(** [loading ? ... : error ? ... : ...] of the component. *)
Definition body (v : View) (name : string) : Body :=
  if loading v then Loading
  else match error v with
       | Some message =>
           if truthy message then ErrorBox message
           else Content (renderContent v name)
       | None => Content (renderContent v name)
       end.

End HtmlWidget.

(* ================================================================== *)
(** * components/WidgetConfigModal.tsx *)
(* ================================================================== *)

Module WidgetConfigModal.
Import Js Json Api.

(** The [useState] cells of the modal. *)
Record State : Type := mkState {
  name : string;
  apiEndpoint : string;
  apiKey : string;
  apiKeyHeader : string;
  reportId : string;
  responseUrlPath : string;
  contentUrl : string;
  saving : bool;
  testing : bool;
  testResult : option string;
  testError : option string;
  testData : json
}.

Definition setResponseUrlPath (st : State) (p : string) : State :=
  mkState (name st) (apiEndpoint st) (apiKey st) (apiKeyHeader st)
    (reportId st) p (contentUrl st) (saving st) (testing st)
    (testResult st) (testError st) (testData st).

Definition setContentUrl (st : State) (u : string) : State :=
  mkState (name st) (apiEndpoint st) (apiKey st) (apiKeyHeader st)
    (reportId st) (responseUrlPath st) u (saving st) (testing st)
    (testResult st) (testError st) (testData st).

Definition setTestData (st : State) (d : json) : State :=
  mkState (name st) (apiEndpoint st) (apiKey st) (apiKeyHeader st)
    (reportId st) (responseUrlPath st) (contentUrl st) (saving st)
    (testing st) (testResult st) (testError st) d.

Definition hexDigit (n : nat) : ascii :=
  match String.get n "0123456789abcdef" with Some c => c | None => "0"%char end.

(** [JSON.stringify] of one character inside a string literal. *)
Definition escapeChar (c : ascii) : string :=
  let n := code c in
  let bs := String "\"%char EmptyString in
  if Ascii.eqb c DQUOTE then bs ++ String DQUOTE EmptyString
  else if Ascii.eqb c "\"%char then bs ++ bs
  else if n =? 8 then bs ++ "b"
  else if n =? 9 then bs ++ "t"
  else if n =? 10 then bs ++ "n"
  else if n =? 12 then bs ++ "f"
  else if n =? 13 then bs ++ "r"
  else if n <? 32
       then bs ++ "u00" ++ String (hexDigit (n / 16)) (String (hexDigit (n mod 16)) EmptyString)
  else String c EmptyString.

Fixpoint escapeString (s : string) : string :=
  match s with
  | EmptyString => EmptyString
  | String c s' => escapeChar c ++ escapeString s'
  end.

Definition quoted (s : string) : string :=
  String DQUOTE EmptyString ++ s ++ String DQUOTE EmptyString.

(** [getRequestBody()] *)
Definition getRequestBody (st : State) : string :=
  if negb (truthy (trim (reportId st))) then EmptyString
  else "{" ++ quoted "report_id" ++ ":" ++ quoted (escapeString (trim (reportId st))) ++ "}".

(** [extractValueFromPath]: the loop over [keys] with its early returns. *)
Fixpoint extractLoop (keys : list string) (result : value) : string :=
  match keys with
  | [] => match result with Some (JString s) => s | _ => EmptyString end
  | key :: keys' =>
      if truthyValue result && typeofObject result then
        if isArray result then
          match parseInt key with
          | Some index => extractLoop keys' (getIndex result index)
          | None => EmptyString
          end
        else extractLoop keys' (getProp result key)
      else EmptyString
  end.

Definition extractValueFromPath (data : json) (path : string) : string :=
  let keys := split DOT path in
  extractLoop keys (Some data).

(** [handlePathClick(path)] *)
Definition handlePathClick (st : State) (path : string) : State :=
  let st1 := setResponseUrlPath st path in
  if truthyValue (Some (testData st)) then
    let url := extractValueFromPath (testData st) path in
    if truthy url && (startsWith url "http://" || startsWith url "https://")
    then setContentUrl st1 url
    else st1
  else st1.

(** What [handleSubmit] hands to [onSave]. *)
Inductive Saved : Type :=
| SavedUpdate : WidgetUpdate -> Saved
| SavedCreate : WidgetCreate -> Saved.

(** [handleSubmit]; [widget] is the prop, [isEditing = !!widget]. *)
Definition handleSubmit (widget : option Widget) (st : State) : Saved :=
  let isEditing := match widget with Some _ => true | None => false end in
  let requestBody := getRequestBody st in
  if isEditing then
    SavedUpdate
      (mkWidgetUpdate (Some (name st)) (Some (apiEndpoint st))
         (if truthy (apiKey st) then Some (apiKey st) else None)
         (Some (apiKeyHeader st)) (Some requestBody)
         (Some (responseUrlPath st)) (Some (contentUrl st)) None None)
  else
    SavedCreate
      (mkWidgetCreate (name st) (apiEndpoint st) (Some (apiKey st))
         (Some (apiKeyHeader st)) (Some requestBody)
         (responseUrlPath st) (contentUrl st) None).

(** The [path] prop of a nested [JsonViewer]:
    [path ? `${path}.${key}` : key] *)
Definition childPath (path key : string) : string :=
  if truthy path then path ++ "." ++ key else key.

(** [`${index}`] *)
Definition indexString (index : nat) : string :=
  NilEmpty.string_of_uint (Nat.to_uint index).

Definition isUrl (s : string) : bool :=
  startsWith s "http://" || startsWith s "https://".

(** [JsonViewer] is read twice: for the props [(path, data)] of every
    nested [JsonViewer] it renders, one per array index and one per object
    key, and for the paths it binds to an [onClick]. The two [map] callbacks
    come first, over the recursive call they make. *)
Section Rows.
Context {A : Type}.
Variable nested : json -> string -> list A.
Variable own : string -> json -> list A.

(** [data.map((item, index) => ...)] *)
Fixpoint arrayRows (path : string) (l : list json) (index : nat) : list A :=
  match l with
  | [] => []
  | item :: l' =>
      let p := childPath path (indexString index) in
      (own p item ++ nested item p ++ arrayRows path l' (S index))%list
  end.

(** [entries.map(([key, value], index) => ...)] *)
Fixpoint objectRows (path : string) (l : list (string * json)) : list A :=
  match l with
  | [] => []
  | (key, value) :: l' =>
      let currentPath := childPath path key in
      (own currentPath value ++ nested value currentPath
         ++ objectRows path l')%list
  end.
End Rows.

(** The props [(path, data)] of every nested [JsonViewer], in document
    order. *)
Fixpoint JsonViewer (data : json) (path : string) : list (string * json) :=
  match data with
  | JArray items => arrayRows JsonViewer (fun p item => [(p, item)]) path items 0
  | JObject entries => objectRows JsonViewer (fun p value => [(p, value)]) path entries
  | _ => []
  end.

(** The paths given to [onPathClick]: the one of a string that looks like a
    URL and the one of every object key. *)
Fixpoint JsonViewerClicks (data : json) (path : string) : list string :=
  match data with
  | JString s => if isUrl s then [path] else []
  | JArray items => arrayRows JsonViewerClicks (fun _ _ => []) path items 0
  | JObject entries =>
      objectRows JsonViewerClicks (fun currentPath _ => [currentPath]) path entries
  | _ => []
  end.

(** ** The test call *)

Definition setTest (st : State) (nowTesting : bool) (result error : option string)
  (data : json) : State :=
  mkState (name st) (apiEndpoint st) (apiKey st) (apiKeyHeader st)
    (reportId st) (responseUrlPath st) (contentUrl st) (saving st)
    nowTesting result error data.

(** [s || undefined] *)
Definition orUndefined (s : string) : option string :=
  if truthy s then Some s else None.

(** [handleTestApi] up to its [await]: the state it leaves and the request
    it makes, if it makes one. *)
Definition handleTestApiBegin (st : State) : State * option TestApiBody :=
  if negb (truthy (apiEndpoint st)) then
    (setTest st (testing st) (testResult st)
       (Some "Please enter an API endpoint first") (testData st),
     None)
  else
    (setTest st true None None JNull,
     Some (testWidgetApiBody (apiEndpoint st) (orUndefined (apiKey st))
             (Some (apiKeyHeader st)) (orUndefined (getRequestBody st)))).

Section TestEnd.
(** [JSON.stringify(data, null, 2)] on a JSON value; on [undefined] it gives
    [undefined]. *)
Variable stringify : json -> string.

(** The cell [testData] after [setTestData(data)]. An [undefined] is kept as
    [null]: the only reader, [handlePathClick], asks for truthiness, and both
    are falsy. *)
Definition stored (data : value) : json :=
  match data with Some d => d | None => JNull end.

(** The [else] branch of the [try]: the reply carries no error. *)
Definition testSucceeded (result : TestApiResult) (st : State) : State :=
  setTest st false (option_map stringify (tar_data result)) None
    (stored (tar_data result)).

(** [handleTestApi] after its [await]: [try] or [catch], then [finally]. *)
Definition handleTestApiEnd (p : Promise TestApiResult) (st : State) : State :=
  match p with
  | Resolved result =>
      match tar_error result with
      | Some message =>
          if truthy message then setTest st false None (Some message) JNull
          else testSucceeded result st
      | None => testSucceeded result st
      end
  | Threw err =>
      setTest st false None
        (Some (match err with Some message => message
                            | None => "Failed to test API" end))
        JNull
  end.
End TestEnd.

End WidgetConfigModal.

(* ================================================================== *)
(** * components/Dashboard.tsx: debounced layout persistence *)
(* ================================================================== *)

Module Dashboard.
Import Js Api.

(** [LayoutItem] of react-grid-layout, with the fields the code reads. *)
Record LayoutItem : Type := mkLayoutItem {
  li_i : string;
  li_x : Z; li_y : Z; li_w : Z; li_h : Z;
  li_minW : option Z;
  li_minH : option Z
}.

(** [Layout] of react-grid-layout. *)
Definition GridLayout : Type := list LayoutItem.

(** One element of the argument of [bulkUpdateLayout]. *)
Record LayoutUpdate : Type := mkLayoutUpdate {
  lu_id : string;
  lu_layout : Layout
}.

(** [a ?? d] *)
Definition orElse (a : option Z) (d : Z) : Z :=
  match a with Some v => v | None => d end.

(** [layoutUpdates] of [saveLayout]. *)
Definition layoutUpdates (layout : GridLayout) : list LayoutUpdate :=
  map (fun item =>
         mkLayoutUpdate (li_i item)
           (mkLayout (li_x item) (li_y item) (li_w item) (li_h item)
              (orElse (li_minW item) 2) (orElse (li_minH item) 2)))
      layout.

(** The component and the part of the browser it talks to: the widgets
    state, the two refs, the timers that are set (handle and due time, in
    the order they were set), the next free handle and the calls of
    [bulkUpdateLayout] made so far. Time is in milliseconds. *)
Record World : Type := mkWorld {
  widgets : list Widget;
  pendingLayoutRef : option GridLayout;
  saveTimeoutRef : option nat;
  timers : list (nat * Z);
  nextHandle : nat;
  bulkCalls : list (list LayoutUpdate)
}.

(** [newLayout.find(l => l.i === id)] *)
Definition findItem (newLayout : GridLayout) (wid : string) : option LayoutItem :=
  find (fun l => String.eqb (li_i l) wid) newLayout.

(** The updater given to [setWidgets]. *)
Definition moveWidgets (newLayout : GridLayout) (prev : list Widget) : list Widget :=
  map (fun widget =>
         match findItem newLayout (id widget) with
         | Some layoutItem =>
             mkWidget (id widget) (name widget) (api_endpoint widget)
               (api_key_masked widget) (api_key_header widget)
               (request_body widget) (response_url_path widget)
               (content_url widget)
               (mkLayout (li_x layoutItem) (li_y layoutItem)
                  (li_w layoutItem) (li_h layoutItem)
                  (minW (layout widget)) (minH (layout widget)))
               (enabled widget) (created_at widget) (updated_at widget)
         | None => widget
         end)
      prev.

(** [saveLayout(layout)] up to its [await]: the call of
    [bulkUpdateLayout]. Its failure is logged and changes nothing. *)
Definition saveLayout (layout : GridLayout) (wd : World) : World :=
  mkWorld (widgets wd) (pendingLayoutRef wd) (saveTimeoutRef wd) (timers wd)
    (nextHandle wd) (bulkCalls wd ++ [layoutUpdates layout])%list.

(** The callback given to [setTimeout]. An array is truthy, also an empty
    one. *)
Definition onTimeout (wd : World) : World :=
  match pendingLayoutRef wd with
  | Some pending =>
      let wd1 := saveLayout pending wd in
      mkWorld (widgets wd1) None (saveTimeoutRef wd1) (timers wd1)
        (nextHandle wd1) (bulkCalls wd1)
  | None => wd
  end.

(** [clearTimeout(handle)] *)
Definition clearTimeout (handle : nat) (l : list (nat * Z)) : list (nat * Z) :=
  filter (fun t => negb (fst t =? handle)) l.

(** [handleLayoutChange(newLayout)], called at time [now]. A handle is a
    positive number, so [if (saveTimeoutRef.current)] asks for one that is
    not zero. *)
Definition handleLayoutChange (now : Z) (newLayout : GridLayout) (wd : World)
  : World :=
  let cleared :=
    match saveTimeoutRef wd with
    | Some handle => if negb (handle =? 0) then clearTimeout handle (timers wd)
                     else timers wd
    | None => timers wd
    end in
  mkWorld (moveWidgets newLayout (widgets wd))
    (Some newLayout)
    (Some (nextHandle wd))
    (cleared ++ [(nextHandle wd, (now + 500)%Z)])%list
    (S (nextHandle wd))
    (bulkCalls wd).

Definition isDue (now : Z) (t : nat * Z) : bool := (snd t <=? now)%Z.

(** The event loop reaches time [now]: every timer due by then runs, in
    the order the timers were set, and is gone. *)
Definition runTimers (now : Z) (wd : World) : World :=
  let due := filter (isDue now) (timers wd) in
  let later := filter (fun t => negb (isDue now t)) (timers wd) in
  fold_left (fun acc _ => onTimeout acc) due
    (mkWorld (widgets wd) (pendingLayoutRef wd) (saveTimeoutRef wd) later
       (nextHandle wd) (bulkCalls wd)).

(** A layout-change event of the grid at time [fst ev]: the timers that
    are due run first, then the handler. *)
Definition step (wd : World) (ev : Z * GridLayout) : World :=
  handleLayoutChange (fst ev) (snd ev) (runTimers (fst ev) wd).

Definition run (events : list (Z * GridLayout)) (wd : World) : World :=
  fold_left step events wd.

(** Nothing more happens: every timer still set runs. *)
Definition quiesce (wd : World) : World :=
  fold_left (fun acc _ => onTimeout acc) (timers wd)
    (mkWorld (widgets wd) (pendingLayoutRef wd) (saveTimeoutRef wd) []
       (nextHandle wd) (bulkCalls wd)).

(** The dashboard once its widgets are loaded. *)
Definition loaded (ws : list Widget) : World :=
  mkWorld ws None None [] 1 [].

(** ** The widget list *)

(** The [layout] the component hands to the grid. *)
Definition layoutOf (ws : list Widget) : GridLayout :=
  map (fun w =>
         mkLayoutItem (id w) (x (layout w)) (y (layout w)) (Api.w (layout w))
           (h (layout w)) (Some (minW (layout w))) (Some (minH (layout w))))
      ws.

(** The updaters [handleSaveWidget] gives to [setWidgets] once the backend
    has answered: for an edit and for a new widget. *)
Definition replaceWidget (updated : Widget) (prev : list Widget) : list Widget :=
  map (fun w => if String.eqb (id w) (id updated) then updated else w) prev.

Definition appendWidget (created : Widget) (prev : list Widget) : list Widget :=
  (prev ++ [created])%list.

(** The updater of [handleDeleteWidget]. *)
Definition removeWidget (wid : string) (prev : list Widget) : list Widget :=
  filter (fun w => negb (String.eqb (id w) wid)) prev.

End Dashboard.

(* ================================================================== *)
(** * What the design document says, in the terms of the embedding *)
(* ================================================================== *)

Module Spec.
Import Js Json Api.
Local Open Scope nat_scope.

Definition newline : string := String LF EmptyString.
Definition quote : string := String DQUOTE EmptyString.

(** ** CSV *)

(** The text [a,b], a line feed, [1,2]. *)
Definition twoRows : string := "a,b" ++ newline ++ "1,2".

(** The line made of the one quoted field of the document: a quote, [a,],
    two quotes, [b,c], three quotes. *)
Definition quotedField : string :=
  quote ++ "a," ++ quote ++ quote ++ "b,c" ++ quote ++ quote ++ quote.

(** The field the document expects for it: [a,], a quote, [b,c]. *)
Definition expectedField : string := "a," ++ quote ++ "b,c".

(** The field the parser gives: the expected one and one more quote. *)
Definition parsedField : string := "a," ++ quote ++ "b,c" ++ quote.

Definition noLineFeed (field : string) : Prop := occurs LF field = false.

(** ** Classification *)

(** [path] is [url] without its query string. *)
Definition queryStripped (url path : string) : Prop :=
  exists query,
    url = path ++ query /\ occurs QMARK path = false
    /\ (query = EmptyString \/ exists q, query = String QMARK q).

(** [path] ends in [ext], whatever the case of its letters. *)
Definition endsIgnoringCase (path ext : string) : Prop :=
  exists stem suffix,
    path = stem ++ suffix /\ toLowerCase suffix = toLowerCase ext.

Definition knownExtensions : list string :=
  (HtmlWidget.IMAGE_EXTENSIONS
     ++ [".md"; ".markdown"; ".csv"; ".html"; ".htm"])%list.

(** No rule on the extension of the source URL fires. *)
Definition noUrlRule (url : option string) : Prop :=
  match url with
  | None => True
  | Some u =>
      u = EmptyString
      \/ forall ext, In ext knownExtensions ->
                     endsWith (HtmlWidget.stripQuery u) ext = false
  end.

(** The content starts with no doctype and with no html tag. *)
Definition noDoctypeRule (content : string) : Prop :=
  let trimmed := trim content in
  startsWith trimmed "<!DOCTYPE" = false
  /\ startsWith trimmed "<!doctype" = false
  /\ startsWith trimmed "<html" = false
  /\ startsWith trimmed "<HTML" = false.

(** Up to the first five lines of the trimmed content that are not empty. *)
Definition sampledNonEmpty (content : string) : list string :=
  firstn 5 (filter truthy (split LF (trim content))).

(** Up to the first five lines of the trimmed content, empty ones too. *)
Definition sampledLines (content : string) : list string :=
  firstn 5 (split LF (trim content)).

(** Every line has the same comma count, which is positive. *)
Definition sameCommaCount (lines : list string) : Prop :=
  exists k, 0 < k /\ Forall (fun line => countChar COMMA line = k) lines.

(** C2, as the document states it. *)
Definition csvRuleAsStated (content : string) (url : option string) : Prop :=
  noUrlRule url -> noDoctypeRule content ->
  sameCommaCount (sampledNonEmpty content) ->
  HtmlWidget.detectContentType content url = HtmlWidget.csv.

(** ** Paths into a JSON value *)

(** What extraction should give for a value: the string itself, and the
    empty string for anything that is no string. *)
Definition textOf (v : json) : string :=
  match v with JString s => s | _ => EmptyString end.

(** [reaches root segments sub]: going down from [root] along the
    segments, a key into an object and a decimal index into an array,
    ends at [sub]. *)
Inductive reaches (root : json) : list string -> json -> Prop :=
| reaches_root : reaches root [] root
| reaches_key (pre : list string) entries key child :
    reaches root pre (JObject entries) ->
    lookup key entries = Some child ->
    reaches root (pre ++ [key]) child
| reaches_index (pre : list string) items segment (i : nat) child :
    reaches root pre (JArray items) ->
    parseInt segment = Some (Z.of_nat i) ->
    nth_error items i = Some child ->
    reaches root (pre ++ [segment]) child.

(** The segment leads nowhere from [current]: no integer or an index
    outside an array, a key an object does not have, or any segment at all
    on a value that is neither. *)
Definition deadEnd (current : json) (segment : string) : Prop :=
  match current with
  | JArray items =>
      parseInt segment = None
      \/ exists index, parseInt segment = Some index
                       /\ (index < 0 \/ Z.of_nat (List.length items) <= index)%Z
  | JObject entries => lookup segment entries = None
  | _ => True
  end.

(** A text that is an integer: decimal digits and nothing else, after an
    optional minus sign. *)
Fixpoint allDigits (s : string) : bool :=
  match s with
  | EmptyString => true
  | String c rest => isDigit c && allDigits rest
  end.

Definition integerText (s : string) : bool :=
  match s with
  | String "-" rest => truthy rest && allDigits rest
  | _ => truthy s && allDigits s
  end.

(** C8, as the document states it, for one value and one path: a segment
    that is no integer, met at an array, gives the empty string. *)
Definition notFoundAsStated (v : json) (path : string) : Prop :=
  forall pre segment rest items,
    split DOT path = (pre ++ segment :: rest)%list ->
    reaches v pre (JArray items) ->
    integerText segment = false ->
    WidgetConfigModal.extractValueFromPath v path = EmptyString.

Definition startsWithDigit (s : string) : bool :=
  match s with
  | EmptyString => false
  | String c _ => isDigit c
  end.

(** The text starts, after white space and one sign at most, with a
    decimal digit: what [parseInt] needs to give a number. *)
Definition hasLeadingInteger (s : string) : bool :=
  match trimStart s with
  | String "-" rest => startsWithDigit rest
  | String "+" rest => startsWithDigit rest
  | rest => startsWithDigit rest
  end.

(** No key comes twice in an object: what an object of JavaScript is. *)
Fixpoint uniqueKeys (entries : list (string * json)) : bool :=
  match entries with
  | [] => true
  | (key, _) :: rest =>
      match lookup key rest with None => true | Some _ => false end
      && uniqueKeys rest
  end.

Fixpoint wellFormed (v : json) : bool :=
  match v with
  | JArray items => forallb wellFormed items
  | JObject entries =>
      uniqueKeys entries && forallb (fun kv => wellFormed (snd kv)) entries
  | _ => true
  end.

(** No key of any object in [v] holds a dot. *)
Fixpoint dotFreeKeys (v : json) : bool :=
  match v with
  | JArray items => forallb dotFreeKeys items
  | JObject entries =>
      forallb (fun kv => negb (occurs DOT (fst kv)) && dotFreeKeys (snd kv))
        entries
  | _ => true
  end.

(** When [v] is an object, none of its own keys is empty. *)
Definition topKeysNonEmpty (v : json) : bool :=
  match v with
  | JObject entries => forallb (fun kv => truthy (fst kv)) entries
  | _ => true
  end.

(** [path] is the text of the segments [pre]: empty at the root, the
    dot-joined segments below it. *)
Definition pathAt (path : string) (pre : list string) : Prop :=
  (path = EmptyString /\ pre = [])
  \/ (truthy path = true /\ split DOT path = pre).

(** Every path the viewer builds below [current], itself at [path], leads
    from the root to the value shown under it. *)
Definition viewerSound (root current : json) : Prop :=
  forall path pre,
    reaches root pre current ->
    pathAt path pre ->
    wellFormed current = true ->
    dotFreeKeys current = true ->
    (pre = [] -> topKeysNonEmpty current = true) ->
    forall p sub,
      In (p, sub) (WidgetConfigModal.JsonViewer current path) ->
      reaches root (split DOT p) sub.

(** C1, as the document states it, for one value. *)
Definition inverseAsStated (v : json) : Prop :=
  forall p sub,
    In (p, sub) (WidgetConfigModal.JsonViewer v EmptyString) ->
    WidgetConfigModal.extractValueFromPath v p = textOf sub.

(** The payload of the document. *)
Definition payload : json :=
  JObject [("data", JObject [("url", JString "https://x/y.pdf")])].

(** The same with a second key, whose value is 42. *)
Definition payloadWithNumber : json :=
  JObject [("data", JObject [("url", JString "https://x/y.pdf");
                             ("count", JNumber 42)])].

(** ** Debounced persistence *)

(** The snapshots that are followed by a quiet period: those of the events
    after which nothing comes for 500 ms or more, and the last one. *)
Fixpoint quietSnapshots (events : list (Z * Dashboard.GridLayout))
  : list Dashboard.GridLayout :=
  match events with
  | [] => []
  | (t, snapshot) :: rest =>
      match rest with
      | [] => [snapshot]
      | (t', _) :: _ =>
          if (500 <=? t' - t)%Z then snapshot :: quietSnapshots rest
          else quietSnapshots rest
      end
  end.

(** Each event comes less than 500 ms after the one before. *)
Fixpoint burst (events : list (Z * Dashboard.GridLayout)) : Prop :=
  match events with
  | [] => True
  | (t, _) :: rest =>
      match rest with
      | [] => True
      | (t', _) :: _ => (0 <= t' - t < 500)%Z /\ burst rest
      end
  end.

(** The dashboard after an event at [t] with [snapshot], while its timer
    is set: [calls] were made so far. *)
Definition armed (wd : Dashboard.World) (t : Z)
  (snapshot : Dashboard.GridLayout)
  (calls : list (list Dashboard.LayoutUpdate)) : Prop :=
  exists ws handle,
    handle <> 0
    /\ wd = Dashboard.mkWorld ws (Some snapshot) (Some handle)
              [(handle, (t + 500)%Z)] (S handle) calls.

End Spec.

Import Js Json Api.

(* ================================================================== *)
(** * Further notions, for the properties read off the code *)
(* ================================================================== *)

Module Laws.
Import Js Json Api.
Local Open Scope nat_scope.

(** ** Writing CSV *)

(** The pieces with the separator between them. *)
Fixpoint joinWith (sep : ascii) (pieces : list string) : string :=
  match pieces with
  | [] => EmptyString
  | [piece] => piece
  | piece :: rest => piece ++ String sep (joinWith sep rest)
  end.

(** Every quote character twice. *)
Fixpoint escapeQuotes (field : string) : string :=
  match field with
  | EmptyString => EmptyString
  | String c rest =>
      if Ascii.eqb c DQUOTE then String DQUOTE (String DQUOTE (escapeQuotes rest))
      else String c (escapeQuotes rest)
  end.

(** A field between quotes, its own quotes doubled. *)
Definition quoteField (field : string) : string :=
  String DQUOTE (escapeQuotes field ++ String DQUOTE EmptyString).

Definition encodeRow (fields : list string) : string :=
  joinWith COMMA (map quoteField fields).

Definition encodeTable (rows : list (list string)) : string :=
  joinWith LF (map encodeRow rows).

(** A row that can be written: it has a field, and no field holds a line
    feed. *)
Definition writable (row : list string) : Prop :=
  row <> [] /\ Forall (fun field => occurs LF field = false) row.

(** A text that starts and ends with a quote character. *)
Definition fenced (s : string) : Prop :=
  (exists rest, s = String DQUOTE rest)
  /\ (exists front, s = front ++ String DQUOTE EmptyString).

(** ** The viewer and the modal *)

(** Every path [current], shown at [path], binds to a click is the path of
    a value the viewer shows below [current], or [path] itself when
    [current] is a string that looks like a URL. *)
Definition clicksVisited (current : json) : Prop :=
  forall path p,
    In p (WidgetConfigModal.JsonViewerClicks current path) ->
    (p = path /\ exists s, current = JString s /\ WidgetConfigModal.isUrl s = true)
    \/ exists sub, In (p, sub) (WidgetConfigModal.JsonViewer current path).

(** The cells of the form, which a test call leaves alone. *)
Definition sameForm (a b : WidgetConfigModal.State) : Prop :=
  WidgetConfigModal.name a = WidgetConfigModal.name b
  /\ WidgetConfigModal.apiEndpoint a = WidgetConfigModal.apiEndpoint b
  /\ WidgetConfigModal.apiKey a = WidgetConfigModal.apiKey b
  /\ WidgetConfigModal.apiKeyHeader a = WidgetConfigModal.apiKeyHeader b
  /\ WidgetConfigModal.reportId a = WidgetConfigModal.reportId b
  /\ WidgetConfigModal.responseUrlPath a = WidgetConfigModal.responseUrlPath b
  /\ WidgetConfigModal.contentUrl a = WidgetConfigModal.contentUrl b
  /\ WidgetConfigModal.saving a = WidgetConfigModal.saving b.

(** The test call failed: it threw, or the reply carries an error text. *)
Definition failed (p : Promise TestApiResult) : bool :=
  match p with
  | Resolved result =>
      match tar_error result with Some message => truthy message | None => false end
  | Threw _ => true
  end.

(** The reply carries no [data]. *)
Definition withoutData (p : Promise TestApiResult) : bool :=
  match p with
  | Resolved result =>
      match tar_data result with Some _ => false | None => true end
  | Threw _ => false
  end.

(** ** The widget component *)

(** The instances a mounted component can be in: the effect runs, a request
    of some run ends, the component is unmounted. *)
Inductive reachable : HtmlWidget.Instance -> Prop :=
| reachable_mounted : reachable HtmlWidget.mounted
| reachable_effect inst :
    reachable inst -> reachable (HtmlWidget.runEffect inst)
| reachable_settle inst n o :
    reachable inst -> reachable (HtmlWidget.settle n o inst)
| reachable_cleanup inst :
    reachable inst -> reachable (HtmlWidget.cleanup inst).

(** The body shows an error text or an element that is there. *)
Definition showsSomething (b : HtmlWidget.Body) : bool :=
  match b with
  | HtmlWidget.Loading => false
  | HtmlWidget.ErrorBox message => truthy message
  | HtmlWidget.Content (Some (HtmlWidget.CsvContent None)) => false
  | HtmlWidget.Content (Some _) => true
  | HtmlWidget.Content None => false
  end.

(** ** The dashboard *)

(** Two widgets that differ in nothing but the place and size on the grid. *)
Definition sameButPlace (a b : Widget) : Prop :=
  id a = id b /\ name a = name b /\ api_endpoint a = api_endpoint b
  /\ api_key_masked a = api_key_masked b
  /\ api_key_header a = api_key_header b
  /\ request_body a = request_body b
  /\ response_url_path a = response_url_path b
  /\ content_url a = content_url b
  /\ enabled a = enabled b /\ created_at a = created_at b
  /\ updated_at a = updated_at b
  /\ minW (layout a) = minW (layout b) /\ minH (layout a) = minH (layout b).

(** The place of a widget is the one the grid item gives. *)
Definition placedAt (item : Dashboard.LayoutItem) (a : Widget) : Prop :=
  x (layout a) = Dashboard.li_x item /\ y (layout a) = Dashboard.li_y item
  /\ w (layout a) = Dashboard.li_w item /\ h (layout a) = Dashboard.li_h item.

(** The dashboards there can be: the widgets are loaded, a layout-change
    event comes, time passes and the timers that are due run, or all that
    are set run. *)
Inductive reachableWorld (ws : list Widget) : Dashboard.World -> Prop :=
| world_loaded : reachableWorld ws (Dashboard.loaded ws)
| world_event wd ev :
    reachableWorld ws wd -> reachableWorld ws (Dashboard.step wd ev)
| world_time wd now :
    reachableWorld ws wd -> reachableWorld ws (Dashboard.runTimers now wd)
| world_quiet wd :
    reachableWorld ws wd -> reachableWorld ws (Dashboard.quiesce wd).

(** Nothing is set and nothing is pending, or one timer is set, the ref
    holds its handle and a snapshot is pending. *)
Definition tidy (wd : Dashboard.World) : Prop :=
  Dashboard.nextHandle wd <> 0
  /\ ((Dashboard.timers wd = [] /\ Dashboard.pendingLayoutRef wd = None)
      \/ exists handle due snapshot,
           handle <> 0
           /\ Dashboard.saveTimeoutRef wd = Some handle
           /\ Dashboard.timers wd = [(handle, due)]
           /\ Dashboard.pendingLayoutRef wd = Some snapshot).

(** What [handleLayoutChange] does to one widget: nothing but its place
    changes, the place is the one of its grid item, and without a grid item
    the widget stays. *)
Definition movedTo (newLayout : Dashboard.GridLayout) (a b : Widget) : Prop :=
  sameButPlace a b
  /\ match Dashboard.findItem newLayout (id a) with
     | Some item => placedAt item b
     | None => b = a
     end.

End Laws.

(* ================================================================== *)
(** * The embedding on concrete inputs *)
(* ================================================================== *)

Section Examples.
Import HtmlWidget WidgetConfigModal Spec.

Example trim_both_ends : trim ("  a b " ++ newline) = "a b".
Proof. reflexivity. Qed.

Example split_keeps_empty_pieces :
  split COMMA ",a,,b," = [EmptyString; "a"; EmptyString; "b"; EmptyString].
Proof. reflexivity. Qed.

Example toLowerCase_ascii : toLowerCase "Foo.PNG?X=1" = "foo.png?x=1".
Proof. reflexivity. Qed.

Example parseInt_prefix : parseInt " -12abc" = Some (-12)%Z.
Proof. reflexivity. Qed.

Example parseInt_nan : parseInt "first" = None /\ parseInt "-" = None.
Proof. split; reflexivity. Qed.

Example classify_doctype : detectContentType "<!DOCTYPE html><p>a,b</p>" None = html.
Proof. reflexivity. Qed.

Example classify_csv : detectContentType twoRows None = csv.
Proof. reflexivity. Qed.

Example classify_blank_line :
  detectContentType ("a,b" ++ newline ++ newline ++ "1,2") None = markdown.
Proof. reflexivity. Qed.

Example classify_ordered_list : detectContentType "12. item" None = markdown.
Proof. reflexivity. Qed.

Example classify_link : detectContentType "see [text](target)" None = markdown.
Proof. reflexivity. Qed.

Example classify_tag : detectContentType "plain <b>bold</b>" None = html.
Proof. reflexivity. Qed.

Example classify_plain : detectContentType "a < b" None = markdown.
Proof. reflexivity. Qed.

Example classify_url_csv : detectContentType "# title" (Some "http://h/r.CSV") = csv.
Proof. reflexivity. Qed.

Example viewer_paths :
  JsonViewer (JArray [JString "x"; JObject [("k", JNull)]]) EmptyString
  = [("0", JString "x"); ("1", JObject [("k", JNull)]); ("1.k", JNull)].
Proof. reflexivity. Qed.

Example viewer_clicks :
  JsonViewerClicks payload EmptyString = ["data"; "data.url"; "data.url"].
Proof. reflexivity. Qed.

Example extract_index :
  extractValueFromPath (JArray [JString "x"; JArray [JNull; JString "y"]]) "1.1"
  = "y".
Proof. reflexivity. Qed.

Example requestBody_escapes :
  getRequestBody
    (mkState EmptyString EmptyString EmptyString EmptyString
       (" r" ++ quote ++ "1 ") EmptyString EmptyString false false None None JNull)
  = "{" ++ quote ++ "report_id" ++ quote ++ ":" ++ quote ++ "r\" ++ quote
    ++ "1" ++ quote ++ "}".
Proof. reflexivity. Qed.

(** A fetch that nothing supersedes is taken. *)
Example fetch_alone :
  view (settle 0 (Rejected (Some "offline")) (runEffect mounted))
  = mkView None None unknown (Some "offline") false.
Proof. reflexivity. Qed.

(** Events at 0, 100, 600 and 1000 ms: the second is followed by 500 ms of
    quiet, and so is the last. *)
Example debounce_two_quiet_periods :
  quietSnapshots
    [(0%Z, [Dashboard.mkLayoutItem "a" 1 0 1 1 None None]);
     (100%Z, [Dashboard.mkLayoutItem "a" 2 0 1 1 None None]);
     (600%Z, [Dashboard.mkLayoutItem "a" 3 0 1 1 None None]);
     (1000%Z, [Dashboard.mkLayoutItem "a" 4 0 1 1 None None])]
  = [[Dashboard.mkLayoutItem "a" 2 0 1 1 None None];
     [Dashboard.mkLayoutItem "a" 4 0 1 1 None None]]
  /\ Dashboard.bulkCalls
       (Dashboard.run
          [(0%Z, [Dashboard.mkLayoutItem "a" 1 0 1 1 None None]);
           (100%Z, [Dashboard.mkLayoutItem "a" 2 0 1 1 None None]);
           (600%Z, [Dashboard.mkLayoutItem "a" 3 0 1 1 None None]);
           (1000%Z, [Dashboard.mkLayoutItem "a" 4 0 1 1 None None])]
          (Dashboard.loaded []))
     = [[Dashboard.mkLayoutUpdate "a" (mkLayout 2 0 1 1 2 2)]].
Proof. split; reflexivity. Qed.

End Examples.

(* ================================================================== *)
(** * Strings *)
(* ================================================================== *)

Section StringFacts.

Lemma append_nil_r (s : string) : s ++ EmptyString = s.
Proof. induction s; simpl; congruence. Qed.

Lemma append_assoc (a b c : string) : (a ++ b) ++ c = a ++ (b ++ c).
Proof. induction a; simpl; congruence. Qed.

Lemma occurs_append (c : ascii) (a b : string) :
  occurs c (a ++ b) = occurs c a || occurs c b.
Proof.
  induction a as [|d a IH]; simpl; [reflexivity|].
  rewrite IH. apply orb_assoc.
Qed.

Lemma occurs_single (c d : ascii) :
  occurs c (String d EmptyString) = Ascii.eqb d c.
Proof. simpl. apply orb_false_r. Qed.

Lemma toLowerCase_append (a b : string) :
  toLowerCase (a ++ b) = toLowerCase a ++ toLowerCase b.
Proof. induction a; simpl; congruence. Qed.

Lemma endsWith_refl (s : string) : endsWith s s = true.
Proof. destruct s; simpl; rewrite ?Ascii.eqb_refl, ?String.eqb_refl; reflexivity. Qed.

Lemma endsWith_append (a b : string) : endsWith (a ++ b) b = true.
Proof.
  induction a as [|c a IH]; simpl append.
  - apply endsWith_refl.
  - simpl. rewrite IH. apply orb_true_r.
Qed.

(** The query mark is no lower-case form of another character. *)
Lemma lowerChar_qmark (c : ascii) :
  Ascii.eqb (lowerChar c) QMARK = Ascii.eqb c QMARK.
Proof.
  destruct c as [[] [] [] [] [] [] [] []]; reflexivity.
Qed.

Lemma occurs_toLowerCase_qmark (s : string) :
  occurs QMARK (toLowerCase s) = occurs QMARK s.
Proof.
  induction s as [|c s IH]; simpl; [reflexivity|].
  rewrite lowerChar_qmark, IH. reflexivity.
Qed.

Lemma split_not_nil (sep : ascii) (s : string) : split sep s <> [].
Proof.
  destruct s as [|c s]; simpl; [discriminate|].
  destruct (Ascii.eqb c sep); [discriminate|].
  destruct (split sep s); discriminate.
Qed.

(** A string without the separator is its own only piece. *)
Lemma split_none (sep : ascii) (s : string) :
  occurs sep s = false -> split sep s = [s].
Proof.
  induction s as [|c s IH]; simpl; [reflexivity|].
  intros H. apply orb_false_elim in H as [Hc Hs].
  rewrite Hc, (IH Hs). reflexivity.
Qed.

(** The first piece of [p ++ sep ++ q] is [p] when [p] is free of [sep]. *)
Lemma split_head (sep : ascii) (p q : string) :
  occurs sep p = false ->
  hd EmptyString (split sep (p ++ String sep q)) = p.
Proof.
  induction p as [|c p IH]; simpl.
  - intros _. rewrite Ascii.eqb_refl. reflexivity.
  - intros H. apply orb_false_elim in H as [Hc Hp].
    rewrite Hc. specialize (IH Hp).
    destruct (split sep (p ++ String sep q)) as [|h t] eqn:E.
    + exfalso. exact (split_not_nil _ _ E).
    + simpl in *. congruence.
Qed.

(** No piece of a split holds the separator. *)
Lemma split_pieces (sep : ascii) (s : string) :
  Forall (fun piece => occurs sep piece = false) (split sep s).
Proof.
  induction s as [|c s IH]; simpl.
  - constructor; [reflexivity | constructor].
  - destruct (Ascii.eqb c sep) eqn:E.
    + constructor; [reflexivity | exact IH].
    + destruct (split sep s) as [|h t].
      * constructor; [simpl; rewrite E; reflexivity | constructor].
      * inversion IH; subst. constructor; [|assumption].
        simpl. rewrite E. assumption.
Qed.

Lemma trimStart_occurs (c : ascii) (s : string) :
  occurs c s = false -> occurs c (trimStart s) = false.
Proof.
  induction s as [|d s IH]; simpl; [reflexivity|].
  intros H. destruct (isWhiteSpace d).
  - apply orb_false_elim in H as [_ Hs]. auto.
  - exact H.
Qed.

Lemma trimEnd_occurs (c : ascii) (s : string) :
  occurs c s = false -> occurs c (trimEnd s) = false.
Proof.
  induction s as [|d s IH]; simpl; [reflexivity|].
  intros H. apply orb_false_elim in H as [Hd Hs]. specialize (IH Hs).
  destruct (trimEnd s) as [|e r].
  - destruct (isWhiteSpace d); simpl; [reflexivity|].
    rewrite Hd. reflexivity.
  - simpl in *. rewrite Hd. exact IH.
Qed.

Lemma trim_occurs (c : ascii) (s : string) :
  occurs c s = false -> occurs c (trim s) = false.
Proof. intros H. apply trimEnd_occurs, trimStart_occurs, H. Qed.

End StringFacts.

(* ================================================================== *)
(** * The CSV parser *)
(* ================================================================== *)

Section CsvFacts.
Import HtmlWidget Spec.

(** Fields only ever hold characters of the line. The loop may jump two
    characters ahead, hence the induction on a bound of the length. *)
Lemma parseLine_fields (c : ascii) (n : nat) :
  forall line current inQuotes result,
    String.length line <= n ->
    c <> DQUOTE ->
    occurs c line = false ->
    occurs c current = false ->
    Forall (fun field => occurs c field = false) result ->
    Forall (fun field => occurs c field = false)
      (parseLine line current inQuotes result).
Proof.
  induction n as [|n IH]; intros line current inQuotes result Hlen Hq Hline Hcur Hres.
  - destruct line; simpl in Hlen; [|lia]. simpl.
    apply Forall_app. split; [assumption|].
    constructor; [apply trim_occurs; assumption | constructor].
  - destruct line as [|char rest]; simpl.
    + apply Forall_app. split; [assumption|].
      constructor; [apply trim_occurs; assumption | constructor].
    + simpl in Hlen, Hline. apply orb_false_elim in Hline as [Hchar Hrest].
      assert (Hlen' : String.length rest <= n) by lia.
      destruct (Ascii.eqb char DQUOTE) eqn:Edq.
      * destruct inQuotes.
        -- destruct rest as [|next rest'].
           ++ apply IH; auto.
           ++ destruct (Ascii.eqb next DQUOTE) eqn:En.
              ** simpl in Hrest, Hlen'.
                 apply orb_false_elim in Hrest as [_ Hrest'].
                 apply IH; auto; [lia|].
                 rewrite occurs_append, Hcur, occurs_single.
                 apply Ascii.eqb_neq. intro E. apply Hq. symmetry. exact E.
              ** apply IH; auto.
        -- apply IH; auto.
      * destruct (Ascii.eqb char COMMA && negb inQuotes).
        -- apply IH; auto.
           apply Forall_app. split; [assumption|].
           constructor; [apply trim_occurs; assumption | constructor].
        -- apply IH; auto.
           rewrite occurs_append, Hcur, occurs_single.
           exact Hchar.
Qed.

End CsvFacts.

Section CsvClaims.
Import HtmlWidget Spec.

(** C6, as the document states it, fails: the quoted field does not parse
    to the field without a closing quote character. *)
Lemma C6_quoted_field_counterexample :
  ~ (parseCSV twoRows = [["a"; "b"]; ["1"; "2"]]
     /\ parseCSV quotedField = [[expectedField]]).
Proof. intros [_ H]. vm_compute in H. discriminate H. Qed.

(** C6, amended: [parseCSV] of [a,b], line feed, [1,2] is the two rows [a],
    [b] and [1], [2]; the line made of the one quoted field (quote, [a,],
    two quotes, [b,c], three quotes) parses to one row with the single
    field [a,], quote, [b,c], quote: the comma inside the open quote does
    not separate, and each of the two doubled quotes is one literal
    quote. *)
Theorem C6_parseCSV_examples :
  parseCSV twoRows = [["a"; "b"]; ["1"; "2"]]
  /\ parseCSV quotedField = [[parsedField]].
Proof. split; vm_compute; reflexivity. Qed.

(** C10: [parseCSV] splits the trimmed text on line feeds before it looks
    at any quote and gives one row per line, each row parsed from its line
    alone; so a line feed inside an open quoted field ends the row (as in
    the text quote, [a], line feed, [b], quote, which gives two rows), and
    no field of any row holds a line feed. *)
Theorem C10_rows_are_lines (content : string) :
  parseCSV content
  = map (fun line => parseLine line EmptyString false [])
      (split LF (trim content))
  /\ List.length (parseCSV content) = List.length (split LF (trim content))
  /\ Forall (Forall noLineFeed) (parseCSV content)
  /\ parseCSV (quote ++ "a" ++ newline ++ "b" ++ quote) = [["a"]; ["b"]].
Proof.
  split; [reflexivity|]. split; [apply length_map|].
  split; [|vm_compute; reflexivity].
  unfold parseCSV. apply Forall_map.
  eapply Forall_impl; [|apply (split_pieces LF)].
  intros line Hline. cbv beta in Hline.
  apply (parseLine_fields LF (String.length line)); auto.
  discriminate.
Qed.

End CsvClaims.

(* ================================================================== *)
(** * The classifier *)
(* ================================================================== *)

Section ClassifierFacts.
Import HtmlWidget Spec.

Lemma truthy_append_r (a b : string) : truthy b = true -> truthy (a ++ b) = true.
Proof. destruct a; simpl; auto. Qed.

Lemma truthy_toLowerCase (s : string) : truthy (toLowerCase s) = truthy s.
Proof. destruct s; reflexivity. Qed.

Lemma image_extension_lower (ext : string) :
  In ext IMAGE_EXTENSIONS -> toLowerCase ext = ext /\ truthy ext = true.
Proof.
  unfold IMAGE_EXTENSIONS. simpl.
  intros H; repeat (destruct H as [H|H]; [subst ext; split; reflexivity|]).
  contradiction.
Qed.

(** The lower-cased URL without its query is the lower-cased path. *)
Lemma stripQuery_path (url path : string) :
  queryStripped url path -> stripQuery url = toLowerCase path.
Proof.
  intros (query & -> & Hfree & Hquery). unfold stripQuery.
  rewrite toLowerCase_append.
  assert (Hlow : occurs QMARK (toLowerCase path) = false)
    by (rewrite occurs_toLowerCase_qmark; exact Hfree).
  destruct Hquery as [-> | [q ->]].
  - simpl toLowerCase. rewrite append_nil_r, (split_none _ _ Hlow). reflexivity.
  - change (toLowerCase (String QMARK q)) with (String QMARK (toLowerCase q)).
    apply split_head. exact Hlow.
Qed.

(** With no rule on the URL firing, the URL plays no part. *)
Lemma detectContentType_without_url (content : string) (url : option string) :
  noUrlRule url -> detectContentType content url = detectContentType content None.
Proof.
  destruct url as [u|]; [|reflexivity].
  intros [-> | H]; [reflexivity|].
  unfold detectContentType. destruct (truthy u); [|reflexivity].
  assert (Himg : some (fun ext => endsWith (stripQuery u) ext) IMAGE_EXTENSIONS = false).
  { unfold some. apply not_true_is_false. intros E.
    apply existsb_exists in E as (ext & Hin & Hend).
    rewrite H in Hend; [discriminate|].
    unfold knownExtensions. apply in_or_app. left. exact Hin. }
  rewrite Himg.
  rewrite !H; [reflexivity| | | | |];
    unfold knownExtensions; apply in_or_app; right; simpl; auto 6.
Qed.

Lemma forallb_same (k : nat) (counts : list nat) :
  0 < k -> Forall (fun c => c = k) counts ->
  forallb (fun c => (c =? k) && (0 <? c)) counts = true.
Proof.
  intros Hk H. induction H as [|c l Hc _ IH]; simpl; [reflexivity|].
  subst c. rewrite Nat.eqb_refl, IH.
  destruct (Nat.ltb_spec 0 k); [reflexivity | lia].
Qed.

End ClassifierFacts.

Section ClassifierClaims.
Import HtmlWidget Spec.

(** C7: whatever the content, also content that alone would be classified
    as markdown, a source URL whose path, without any query string, ends
    in an image extension in any letter case is classified as [image]. *)
Theorem C7_image_extension_wins (content url path ext : string) :
  queryStripped url path ->
  In ext IMAGE_EXTENSIONS ->
  endsIgnoringCase path ext ->
  detectContentType content (Some url) = image.
Proof.
  intros Hq Hext (stem & suffix & -> & Hsuffix).
  destruct (image_extension_lower ext Hext) as [Hlow Hne].
  rewrite Hlow in Hsuffix.
  pose proof (stripQuery_path url _ Hq) as Hstrip.
  rewrite toLowerCase_append, Hsuffix in Hstrip.
  assert (Hurl : truthy url = true).
  { destruct Hq as (query & -> & _ & _).
    rewrite append_assoc. apply truthy_append_r.
    rewrite <- truthy_toLowerCase, toLowerCase_append, Hsuffix.
    destruct ext; [discriminate Hne | reflexivity]. }
  unfold detectContentType. rewrite Hurl, Hstrip.
  replace (some _ IMAGE_EXTENSIONS) with true; [reflexivity|].
  symmetry. unfold some. apply existsb_exists.
  exists ext. split; [exact Hext | apply endsWith_append].
Qed.

(** C7 at the URL of the document, [foo.png?x=1], with a content that is
    markdown without it. *)
Lemma C7_image_extension_wins_witness :
  detectContentType "# Title" None = markdown
  /\ detectContentType "# Title" (Some "foo.png?x=1") = image.
Proof.
  split; [reflexivity|].
  apply (C7_image_extension_wins "# Title" "foo.png?x=1" "foo.png" ".png").
  - exists "?x=1". split; [reflexivity|]. split; [reflexivity|].
    right. exists "x=1". reflexivity.
  - simpl. auto.
  - exists "foo", ".png". split; reflexivity.
Defined.

(** C2 fails on the one line [a,b]: its only line has one comma, and the
    content is classified as markdown. *)
Lemma C2_single_line_counterexample : ~ csvRuleAsStated "a,b" None.
Proof.
  intros H.
  assert (E : detectContentType "a,b" None = csv).
  { apply H.
    - exact I.
    - repeat split.
    - exists 1. split; [lia|]. repeat constructor. }
  vm_compute in E. discriminate E.
Qed.

(** C2, amended: when no rule on the URL extension and no doctype or
    leading html tag rule fires, the trimmed content has at least two
    lines, and each of its first five lines at most, empty lines counted,
    has the same positive number of commas, the content is classified as
    [csv]. *)
Theorem C2_csv_rule (content : string) (url : option string) :
  noUrlRule url ->
  noDoctypeRule content ->
  2 <= List.length (sampledLines content) ->
  sameCommaCount (sampledLines content) ->
  detectContentType content url = csv.
Proof.
  intros Hurl (H1 & H2 & H3 & H4) Hlen (k & Hk & Hsame).
  rewrite (detectContentType_without_url _ _ Hurl).
  unfold detectContentType. rewrite H1, H2, H3, H4. simpl orb. cbv iota.
  unfold sampledLines in *. unfold slice0, every.
  set (lines := firstn 5 (split LF (trim content))) in *.
  assert (Hcounts : Forall (fun c => c = k) (map (countChar COMMA) lines)).
  { apply Forall_map. exact Hsame. }
  assert (Hhd : hd 0 (map (countChar COMMA) lines) = k).
  { destruct lines as [|l0 ls]; [simpl in Hlen; lia|].
    inversion Hsame; subst. reflexivity. }
  rewrite Hhd, (forallb_same k _ Hk Hcounts).
  destruct (Nat.leb_spec 2 (List.length lines)); [|lia].
  destruct (Nat.leb_spec 1 k); [reflexivity | lia].
Qed.

Lemma C2_csv_rule_witness :
  detectContentType ("a,b" ++ newline ++ "1,2") None = csv.
Proof.
  apply C2_csv_rule.
  - exact I.
  - repeat split.
  - vm_compute. lia.
  - exists 1. split; [lia|]. vm_compute. repeat constructor.
Defined.

End ClassifierClaims.

(* ================================================================== *)
(** * Paths: what the viewer builds and what the extractor reads *)
(* ================================================================== *)

Section JsonInduction.
Variable P : json -> Prop.
Hypothesis HNull : P JNull.
Hypothesis HBool : forall b, P (JBool b).
Hypothesis HNumber : forall n, P (JNumber n).
Hypothesis HString : forall s, P (JString s).
Hypothesis HArray : forall items, Forall P items -> P (JArray items).
Hypothesis HObject :
  forall entries, Forall (fun kv => P (snd kv)) entries -> P (JObject entries).

(** Induction over a JSON value with the hypothesis for every element and
    every entry. *)
Lemma json_nested_ind : forall v, P v.
Proof.
  fix IH 1. intros [| b | n | s | items | entries].
  - exact HNull.
  - apply HBool.
  - apply HNumber.
  - apply HString.
  - apply HArray. induction items as [|item items IHitems].
    + constructor.
    + constructor; [apply IH | exact IHitems].
  - apply HObject. induction entries as [|[key value] entries IHentries].
    + constructor.
    + constructor; [apply IH | exact IHentries].
Qed.
End JsonInduction.

Section IndexFacts.
Import WidgetConfigModal.

Lemma unorm_not_nil (d : Decimal.uint) : Decimal.unorm d <> Decimal.Nil.
Proof. unfold Decimal.unorm. destruct (Decimal.nzhead d); discriminate. Qed.

Lemma to_uint_not_nil (n : nat) : Nat.to_uint n <> Decimal.Nil.
Proof.
  rewrite <- (DecimalNat.Unsigned.of_to n) at 1.
  rewrite DecimalNat.Unsigned.to_of. apply unorm_not_nil.
Qed.

Lemma string_of_uint_dot_free (d : Decimal.uint) :
  occurs DOT (NilEmpty.string_of_uint d) = false.
Proof. induction d; simpl; auto. Qed.

Lemma string_of_uint_truthy (d : Decimal.uint) :
  d <> Decimal.Nil -> truthy (NilEmpty.string_of_uint d) = true.
Proof. destruct d; simpl; congruence. Qed.

(** Reading the digits of [d] after the number [a]. *)
Lemma parseDigits_uint (d : Decimal.uint) :
  forall a : nat,
    parseDigits (NilEmpty.string_of_uint d) (Some (Z.of_nat a))
    = Some (Z.of_nat (Nat.of_uint_acc d a)).
Proof.
  induction d; intros a; simpl NilEmpty.string_of_uint; [reflexivity|..];
    (cbn [parseDigits]; unfold isDigit, digitValue;
     match goal with
     | |- context [code ?c] =>
         let n := eval vm_compute in (code c) in
         change (code c) with n
     end;
     cbn [Nat.leb Nat.sub andb];
     simpl Nat.of_uint_acc; rewrite <- IHd; f_equal; f_equal;
     rewrite Nat.tail_mul_spec; lia).
Qed.

Lemma parseInt_uint (d : Decimal.uint) :
  d <> Decimal.Nil ->
  parseInt (NilEmpty.string_of_uint d) = Some (Z.of_nat (Nat.of_uint d)).
Proof.
  intros Hd. unfold Nat.of_uint. rewrite <- parseDigits_uint.
  destruct d; [congruence|..]; reflexivity.
Qed.

(** [parseInt] reads back the index the viewer printed. *)
Lemma parseInt_indexString (i : nat) :
  parseInt (indexString i) = Some (Z.of_nat i).
Proof.
  unfold indexString. rewrite parseInt_uint by apply to_uint_not_nil.
  rewrite DecimalNat.Unsigned.of_to. reflexivity.
Qed.

Lemma indexString_dot_free (i : nat) : occurs DOT (indexString i) = false.
Proof. apply string_of_uint_dot_free. Qed.

Lemma indexString_truthy (i : nat) : truthy (indexString i) = true.
Proof. apply string_of_uint_truthy, to_uint_not_nil. Qed.

End IndexFacts.

Section PathFacts.
Import WidgetConfigModal Spec.

(** Appending a dot and a dot-free segment appends one piece. *)
Lemma split_snoc (path segment : string) :
  occurs DOT segment = false ->
  split DOT (path ++ String DOT segment) = (split DOT path ++ [segment])%list.
Proof.
  intros Hseg. induction path as [|c path IH]; simpl.
  - rewrite (split_none _ _ Hseg). reflexivity.
  - destruct (Ascii.eqb c DOT).
    + rewrite IH. reflexivity.
    + rewrite IH. destruct (split DOT path) as [|h t] eqn:E.
      * exfalso. exact (split_not_nil _ _ E).
      * reflexivity.
Qed.

Lemma childPath_at (path segment : string) (pre : list string) :
  pathAt path pre ->
  occurs DOT segment = false ->
  (pre = [] -> truthy segment = true) ->
  truthy (childPath path segment) = true
  /\ split DOT (childPath path segment) = (pre ++ [segment])%list.
Proof.
  intros [[-> ->] | [Hne Hsplit]] Hdot Htop; unfold childPath.
  - simpl. split; [auto | apply split_none; exact Hdot].
  - rewrite Hne. split.
    + destruct path; [discriminate | reflexivity].
    + change ("." ++ segment) with (String DOT segment).
      rewrite split_snoc, Hsplit by exact Hdot. reflexivity.
Qed.

Lemma lookup_unique (entries : list (string * json)) (key : string) (v : json) :
  uniqueKeys entries = true -> In (key, v) entries ->
  lookup key entries = Some v.
Proof.
  induction entries as [|[k0 v0] rest IH]; simpl; [contradiction|].
  intros Hu Hin. apply andb_prop in Hu as [Hfresh Hrest].
  destruct Hin as [E | Hin].
  - inversion E; subst. rewrite String.eqb_refl. reflexivity.
  - specialize (IH Hrest Hin).
    destruct (String.eqb_spec k0 key) as [->|_]; [|exact IH].
    rewrite IH in Hfresh. discriminate.
Qed.

Lemma extractLoop_undefined (keys : list string) :
  extractLoop keys None = EmptyString.
Proof. destruct keys; reflexivity. Qed.

(** The loop arrives where [reaches] says, and goes on from there. *)
Lemma extractLoop_reaches (root : json) (pre : list string) (current : json) :
  reaches root pre current ->
  forall rest,
    extractLoop (pre ++ rest) (Some root) = extractLoop rest (Some current).
Proof.
  induction 1 as [| pre entries key child _ IH Hkey
                  | pre items segment i child _ IH Hint Hnth];
    intros rest.
  - reflexivity.
  - rewrite <- app_assoc, IH. simpl. rewrite Hkey. reflexivity.
  - rewrite <- app_assoc, IH. simpl. rewrite Hint.
    unfold getIndex.
    destruct (Z.ltb_spec (Z.of_nat i) 0); [lia|].
    rewrite Nat2Z.id, Hnth. reflexivity.
Qed.

(** A path that reaches a value extracts its text. *)
Lemma extract_reached (root : json) (path : string) (sub : json) :
  reaches root (split DOT path) sub ->
  extractValueFromPath root path = textOf sub.
Proof.
  intros H. unfold extractValueFromPath.
  rewrite <- (app_nil_r (split DOT path)).
  rewrite (extractLoop_reaches _ _ _ H). destruct sub; reflexivity.
Qed.

Lemma app_cons_not_nil {A} (l : list A) (x : A) : (l ++ [x])%list <> [].
Proof. destruct l; discriminate. Qed.

Lemma arrayRows_sound (root : json) (items : list json) (path : string)
  (pre : list string) :
  reaches root pre (JArray items) ->
  pathAt path pre ->
  Forall (viewerSound root) items ->
  forallb wellFormed items = true ->
  forallb dotFreeKeys items = true ->
  forall l done,
    items = (done ++ l)%list ->
    forall p sub,
      In (p, sub)
        (arrayRows JsonViewer (fun p item => [(p, item)]) path l
           (List.length done)) ->
      reaches root (split DOT p) sub.
Proof.
  intros Hreach Hpath Hsound Hwf Hdot.
  induction l as [|item l IH]; intros done Hitems p sub Hin; [contradiction|].
  cbn [arrayRows] in Hin.
  set (index := List.length done) in *.
  destruct (childPath_at path (indexString index) pre Hpath
              (indexString_dot_free index)
              (fun _ => indexString_truthy index)) as [Hne Hsplit].
  assert (Hmem : In item items) by (subst items; apply in_elt).
  assert (Hitem : reaches root (pre ++ [indexString index]) item).
  { eapply reaches_index; [exact Hreach | apply parseInt_indexString |].
    subst items index. rewrite nth_error_app2, Nat.sub_diag by lia.
    reflexivity. }
  apply in_app_or in Hin as [Hin | Hin].
  - destruct Hin as [E | []]. inversion E; subst p sub.
    rewrite Hsplit. exact Hitem.
  - apply in_app_or in Hin as [Hin | Hin].
    + rewrite Forall_forall in Hsound.
      rewrite forallb_forall in Hwf, Hdot.
      apply (Hsound item Hmem (childPath path (indexString index))
               (pre ++ [indexString index])%list);
        [ exact Hitem | right; split; assumption | exact (Hwf _ Hmem)
        | exact (Hdot _ Hmem) | | exact Hin ].
      intros E. exfalso. exact (app_cons_not_nil _ _ E).
    + apply (IH (done ++ [item])%list).
      * rewrite <- app_assoc. exact Hitems.
      * rewrite length_app, Nat.add_1_r. exact Hin.
Qed.

Lemma objectRows_sound (root : json) (entries : list (string * json))
  (path : string) (pre : list string) :
  reaches root pre (JObject entries) ->
  pathAt path pre ->
  Forall (fun kv => viewerSound root (snd kv)) entries ->
  wellFormed (JObject entries) = true ->
  dotFreeKeys (JObject entries) = true ->
  (pre = [] -> topKeysNonEmpty (JObject entries) = true) ->
  forall l,
    incl l entries ->
    forall p sub,
      In (p, sub)
        (objectRows JsonViewer (fun p value => [(p, value)]) path l) ->
      reaches root (split DOT p) sub.
Proof.
  intros Hreach Hpath Hsound Hwf Hdot Htop.
  cbn [wellFormed] in Hwf. apply andb_prop in Hwf as [Huniq Hwf].
  cbn [dotFreeKeys] in Hdot.
  rewrite forallb_forall in Hwf, Hdot. rewrite Forall_forall in Hsound.
  induction l as [|[key value] l IH]; intros Hincl p sub Hin; [contradiction|].
  cbn [objectRows] in Hin.
  assert (Hmem : In (key, value) entries) by (apply Hincl; left; reflexivity).
  pose proof (Hdot _ Hmem) as Hkv. cbn [fst snd] in Hkv.
  apply andb_prop in Hkv as [Hkey Hvalue].
  apply negb_true_iff in Hkey.
  assert (Hnonempty : pre = [] -> truthy key = true).
  { intros E. specialize (Htop E). cbn [topKeysNonEmpty] in Htop.
    rewrite forallb_forall in Htop. exact (Htop _ Hmem). }
  destruct (childPath_at path key pre Hpath Hkey Hnonempty) as [Hne Hsplit].
  assert (Hchild : reaches root (pre ++ [key]) value).
  { eapply reaches_key; [exact Hreach | apply lookup_unique; assumption]. }
  apply in_app_or in Hin as [Hin | Hin].
  - destruct Hin as [E | []]. inversion E; subst p sub.
    rewrite Hsplit. exact Hchild.
  - apply in_app_or in Hin as [Hin | Hin].
    + apply (Hsound _ Hmem (childPath path key) (pre ++ [key])%list);
        [ exact Hchild | right; split; assumption | exact (Hwf _ Hmem)
        | exact Hvalue | | exact Hin ].
      intros E. exfalso. exact (app_cons_not_nil _ _ E).
    + apply IH; [|exact Hin].
      intros kv Hkv'. apply Hincl. right. exact Hkv'.
Qed.

(** Every path the viewer builds leads, segment by segment, to the value
    the viewer shows under it. *)
Lemma JsonViewer_sound (root : json) : forall current, viewerSound root current.
Proof.
  induction current as [| b | n | s | items IH | entries IH]
    using json_nested_ind;
    intros path pre Hreach Hpath Hwf Hdot Htop p sub Hin;
    try contradiction.
  - cbn [JsonViewer] in Hin.
    apply (arrayRows_sound root items path pre Hreach Hpath IH Hwf Hdot
             items [] eq_refl p sub Hin).
  - cbn [JsonViewer] in Hin.
    apply (objectRows_sound root entries path pre Hreach Hpath IH Hwf Hdot
             Htop entries (incl_refl _) p sub Hin).
Qed.

End PathFacts.

Section PathClaims.
Import WidgetConfigModal Spec.

(** C1, as the document states it, fails for a key that holds a dot: the
    viewer shows the string under the path [a.b], which the extractor reads
    as key [a], then key [b]. *)
Lemma C1_dotted_key_counterexample :
  ~ inverseAsStated (JObject [("a.b", JString "x")]).
Proof.
  intros H. specialize (H "a.b" (JString "x")).
  assert (E : extractValueFromPath (JObject [("a.b", JString "x")]) "a.b"
              = textOf (JString "x")).
  { apply H. simpl. left. reflexivity. }
  vm_compute in E. discriminate E.
Qed.

(** C1, amended: for every JSON value in which no object key holds a dot
    and no key of the top-level object is empty (an object having each of
    its keys once), and every path the viewer builds for a key or an index
    it visits, [extractValueFromPath] gives the value shown at that
    position when it is a string, and the empty string when it is not. *)
Theorem C1_extract_inverts_viewer (v : json) :
  wellFormed v = true ->
  dotFreeKeys v = true ->
  topKeysNonEmpty v = true ->
  forall p sub,
    In (p, sub) (JsonViewer v EmptyString) ->
    extractValueFromPath v p = textOf sub.
Proof.
  intros Hwf Hdot Htop p sub Hin.
  apply extract_reached.
  apply (JsonViewer_sound v v EmptyString []); auto.
  - constructor.
  - left. split; reflexivity.
Qed.

Lemma C1_extract_inverts_viewer_witness :
  extractValueFromPath payloadWithNumber "data.url" = "https://x/y.pdf"
  /\ extractValueFromPath payloadWithNumber "data.count" = EmptyString.
Proof.
  split.
  - apply (C1_extract_inverts_viewer payloadWithNumber eq_refl eq_refl
             eq_refl "data.url" (JString "https://x/y.pdf")).
    simpl. auto.
  - apply (C1_extract_inverts_viewer payloadWithNumber eq_refl eq_refl
             eq_refl "data.count" (JNumber 42)).
    simpl. auto.
Defined.

Lemma parseDigits_some (s : string) :
  forall a, parseDigits s (Some a) <> None.
Proof.
  induction s as [|c s IH]; intros a; cbn [parseDigits]; [discriminate|].
  destruct (isDigit c); [apply IH | discriminate].
Qed.

Lemma parseDigits_none (s : string) :
  parseDigits s None = None <-> startsWithDigit s = false.
Proof.
  destruct s as [|c s]; cbn [parseDigits startsWithDigit]; [tauto|].
  destruct (isDigit c); [|tauto].
  split; [|discriminate]. intros H. exfalso. exact (parseDigits_some _ _ H).
Qed.

Lemma option_map_none {A B} (f : A -> B) (o : option A) :
  option_map f o = None <-> o = None.
Proof. destruct o; cbn; split; intros H; try discriminate H; reflexivity. Qed.

(** [parseInt] gives [NaN] exactly for a text without a leading integer. *)
Lemma parseInt_none (s : string) :
  parseInt s = None <-> hasLeadingInteger s = false.
Proof.
  unfold parseInt, hasLeadingInteger.
  destruct (trimStart s) as [|c rest]; [cbn; tauto|].
  destruct c as [[] [] [] [] [] [] [] []]; cbv beta iota;
    first [ apply parseDigits_none
          | rewrite option_map_none; apply parseDigits_none ].
Qed.

(** C8, as the document states it, fails for a segment that is no integer
    but starts with one: in the array of [u] and [v] the segment [1abc] is
    read as the index 1 and gives [v]. *)
Lemma C8_digit_prefix_counterexample :
  ~ notFoundAsStated (JArray [JString "u"; JString "v"]) "1abc".
Proof.
  intros H.
  specialize (H [] "1abc" [] [JString "u"; JString "v"] eq_refl
                (reaches_root _) eq_refl).
  vm_compute in H. discriminate H.
Qed.

(** C8, amended: when the traversal stands at an array and [parseInt] finds
    no integer in the next segment of the path (the segment has no decimal
    digit after leading white space and one sign at most),
    [extractValueFromPath] gives the empty string; and so it does for a key
    the object does not have, for an index outside the array, and for a
    value that is neither array nor object while segments are left. *)
Theorem C8_dead_end_is_empty (v : json) (path : string)
  (pre : list string) (segment : string) (rest : list string) (current : json) :
  split DOT path = (pre ++ segment :: rest)%list ->
  reaches v pre current ->
  deadEnd current segment ->
  extractValueFromPath v path = EmptyString.
Proof.
  intros Hsplit Hreach Hdead. unfold extractValueFromPath.
  rewrite Hsplit, (extractLoop_reaches _ _ _ Hreach).
  destruct current as [| b | n | s | items | entries]; cbn [extractLoop].
  - reflexivity.
  - rewrite andb_false_r. reflexivity.
  - rewrite andb_false_r. reflexivity.
  - rewrite andb_false_r. reflexivity.
  - cbn. destruct Hdead as [Hnan | (index & Hint & Hout)].
    + rewrite Hnan. reflexivity.
    + rewrite Hint.
      destruct (Z.ltb_spec index 0); [apply extractLoop_undefined|].
      replace (nth_error items (Z.to_nat index)) with (@None json).
      * apply extractLoop_undefined.
      * symmetry. apply nth_error_None. lia.
  - cbn. cbn in Hdead. rewrite Hdead. apply extractLoop_undefined.
Qed.

Lemma C8_dead_end_is_empty_witness :
  extractValueFromPath (JObject [("items", JArray [JString "u"])])
    "items.first.url" = EmptyString.
Proof.
  apply (C8_dead_end_is_empty _ "items.first.url" ["items"] "first" ["url"]
           (JArray [JString "u"])).
  - reflexivity.
  - apply (reaches_key _ [] [("items", JArray [JString "u"])] "items").
    + apply reaches_root.
    + reflexivity.
  - left. reflexivity.
Defined.

Lemma extract_falsy (data : json) (path : string) :
  truthyValue (Some data) = false ->
  extractValueFromPath data path = EmptyString.
Proof.
  intros H. unfold extractValueFromPath.
  destruct (split DOT path) as [|key keys] eqn:E.
  - exfalso. exact (split_not_nil _ _ E).
  - cbn [extractLoop]. rewrite H. reflexivity.
Qed.

Lemma isUrl_truthy (url : string) :
  truthy url && (startsWith url "http://" || startsWith url "https://")
  = isUrl url.
Proof. destruct url; reflexivity. Qed.

(** C5: a path activation sets [responseUrlPath] to the clicked path and
    touches nothing else but [contentUrl], which becomes the extracted value
    when that starts with [http://] or [https://] and stays as it was
    otherwise. With the payload of the document stored, the [url] key is
    bound to the path [data.url], and clicking it sets the path to
    [data.url] and the captured URL to [https://x/y.pdf]; clicking the key
    whose value is 42 sets the path and leaves the captured URL. *)
Theorem C5_path_click (st : State) (path : string) :
  handlePathClick st path
  = mkState (name st) (apiEndpoint st) (apiKey st) (apiKeyHeader st)
      (reportId st) path
      (if isUrl (extractValueFromPath (testData st) path)
       then extractValueFromPath (testData st) path
       else contentUrl st)
      (saving st) (testing st) (testResult st) (testError st) (testData st)
  /\ In "data.url" (JsonViewerClicks payload EmptyString)
  /\ responseUrlPath (handlePathClick (setTestData st payload) "data.url")
     = "data.url"
  /\ contentUrl (handlePathClick (setTestData st payload) "data.url")
     = "https://x/y.pdf"
  /\ In "data.count" (JsonViewerClicks payloadWithNumber EmptyString)
  /\ responseUrlPath
       (handlePathClick (setTestData st payloadWithNumber) "data.count")
     = "data.count"
  /\ contentUrl
       (handlePathClick (setTestData st payloadWithNumber) "data.count")
     = contentUrl st.
Proof.
  split.
  - unfold handlePathClick.
    destruct (truthyValue (Some (testData st))) eqn:Htruthy.
    + cbv zeta. rewrite isUrl_truthy.
      destruct (isUrl (extractValueFromPath (testData st) path));
        destruct st; reflexivity.
    + rewrite (extract_falsy _ _ Htruthy). destruct st; reflexivity.
  - destruct st; repeat split; simpl; auto.
Qed.

(** C9: the update an edit hands to [onSave] has no [api_key] field when
    the key input is empty, and when it has one, that is the key the user
    typed, which is not empty. *)
Theorem C9_blank_key_is_omitted (widget : Widget) (st : State) :
  exists update,
    handleSubmit (Some widget) st = SavedUpdate update
    /\ (apiKey st = EmptyString -> wu_api_key update = None)
    /\ (forall key, wu_api_key update = Some key ->
                    key = apiKey st /\ key <> EmptyString).
Proof.
  eexists. split; [reflexivity|]. cbn [wu_api_key]. split.
  - intros ->. reflexivity.
  - intros key. destruct (apiKey st); cbn [truthy]; [discriminate|].
    intros E. inversion E. split; [reflexivity | discriminate].
Qed.

Lemma C9_blank_key_is_omitted_witness :
  exists update,
    handleSubmit
      (Some (mkWidget "w1" "Report" "http://h/run" "kwz_****" "X-API-Key"
               EmptyString "url" EmptyString (mkLayout 0 0 4 3 2 2) true
               "2026-01-12" "2026-01-12"))
      (mkState "Report" "http://h/run" EmptyString "X-API-Key" EmptyString
         "url" EmptyString false false None None JNull)
    = SavedUpdate update
    /\ wu_api_key update = None.
Proof.
  destruct (C9_blank_key_is_omitted
              (mkWidget "w1" "Report" "http://h/run" "kwz_****" "X-API-Key"
                 EmptyString "url" EmptyString (mkLayout 0 0 4 3 2 2) true
                 "2026-01-12" "2026-01-12")
              (mkState "Report" "http://h/run" EmptyString "X-API-Key"
                 EmptyString "url" EmptyString false false None None JNull))
    as (update & Hsave & Hblank & _).
  exists update. split; [exact Hsave | apply Hblank; reflexivity].
Defined.

End PathClaims.

(* ================================================================== *)
(** * The content fetch of a widget *)
(* ================================================================== *)

Section FetchFacts.
Import HtmlWidget.

Lemma setFlag_length (n : nat) (l : list bool) :
  List.length (setFlag n l) = List.length l.
Proof.
  revert n. induction l as [|b l IH]; intros [|n]; simpl; auto.
Qed.

(** Setting the flag of the run started last. *)
Lemma setFlag_last (l : list bool) (b : bool) :
  setFlag (List.length l) (l ++ [b]) = (l ++ [true])%list.
Proof. induction l as [|c l IH]; simpl; congruence. Qed.

Lemma cleanup_length (inst : Instance) :
  List.length (cancelled (cleanup inst)) = List.length (cancelled inst).
Proof.
  unfold cleanup. destruct (active inst); simpl; [apply setFlag_length | reflexivity].
Qed.

(** A run of the effect gets the next number. *)
Lemma runEffect_active (inst : Instance) :
  active (runEffect inst) = Some (List.length (cancelled inst)).
Proof. cbn [runEffect active]. rewrite cleanup_length. reflexivity. Qed.

Lemma runEffect_cancelled (inst : Instance) :
  cancelled (runEffect inst) = (cancelled (cleanup inst) ++ [false])%list.
Proof. reflexivity. Qed.

(** The effect that ran last is the one whose result is taken. *)
Lemma settle_active (inst : Instance) (n : nat) (o : Outcome) :
  active (runEffect inst) = Some n ->
  view (settle n o (runEffect inst)) = complete o (view (runEffect inst)).
Proof.
  rewrite runEffect_active. intros H. injection H as <-. unfold settle.
  rewrite runEffect_cancelled, <- cleanup_length, nth_middle. reflexivity.
Qed.

(** After a second run of the effect, the flag of the first is set and the
    flag of the second is not. *)
Lemma flags_after_two_runs (inst : Instance) (first second : nat) :
  active (runEffect inst) = Some first ->
  active (runEffect (runEffect inst)) = Some second ->
  nth first (cancelled (runEffect (runEffect inst))) true = true
  /\ nth second (cancelled (runEffect (runEffect inst))) true = false.
Proof.
  rewrite !runEffect_active. intros H1 H2.
  injection H2 as <-. injection H1 as <-.
  set (flags := cancelled (cleanup inst)).
  assert (Hlen : List.length (cancelled inst) = List.length flags)
    by (symmetry; apply cleanup_length).
  assert (E : cancelled (cleanup (runEffect inst)) = (flags ++ [true])%list).
  { unfold cleanup at 1. rewrite runEffect_active. cbn [cancelled].
    rewrite runEffect_cancelled. fold flags. rewrite Hlen.
    apply setFlag_last. }
  rewrite (runEffect_cancelled (runEffect inst)), E. split.
  - rewrite Hlen, <- app_assoc. apply nth_middle.
  - replace (List.length (flags ++ [false])%list)
      with (List.length (flags ++ [true])%list)
      by (rewrite !length_app; reflexivity).
    apply nth_middle.
Qed.

End FetchFacts.

Section FetchClaims.
Import HtmlWidget.

(** C4: when the effect of a widget runs a second time before the fetch of
    its first run has ended, then, in whichever order the two fetches end
    and whatever the first one brings, the state is the one the result of
    the second fetch gives: content, URL, content type, error and loading
    flag are those [loadContent] sets for it, and the result of the first
    fetch is dropped. *)
Theorem C4_stale_fetch_is_discarded (inst : Instance) (first second : nat)
  (stale latest : Outcome) :
  active (runEffect inst) = Some first ->
  active (runEffect (runEffect inst)) = Some second ->
  let started := runEffect (runEffect inst) in
  view (settle second latest (settle first stale started))
  = complete latest (view started)
  /\ view (settle first stale (settle second latest started))
     = complete latest (view started).
Proof.
  intros H1 H2 started.
  destruct (flags_after_two_runs inst first second H1 H2) as [Hfirst Hsecond].
  fold started in Hfirst, Hsecond.
  split.
  - unfold settle at 2. rewrite Hfirst.
    unfold settle. rewrite Hsecond. reflexivity.
  - unfold settle at 2. rewrite Hsecond.
    unfold settle. cbn [cancelled]. rewrite Hfirst. reflexivity.
Qed.

Lemma C4_stale_fetch_is_discarded_witness :
  view (settle 1 (Fulfilled (mkWidgetContent "w" "W" None (Some "# late") None))
          (settle 0 (Rejected (Some "timeout"))
             (runEffect (runEffect mounted))))
  = mkView (Some "# late") None markdown None false
  /\ view (settle 0 (Rejected (Some "timeout"))
             (settle 1 (Fulfilled (mkWidgetContent "w" "W" None (Some "# late") None))
                (runEffect (runEffect mounted))))
     = mkView (Some "# late") None markdown None false.
Proof.
  exact (C4_stale_fetch_is_discarded mounted 0 1 (Rejected (Some "timeout"))
           (Fulfilled (mkWidgetContent "w" "W" None (Some "# late") None))
           eq_refl eq_refl).
Defined.

End FetchClaims.

(* ================================================================== *)
(** * Debounced persistence of the layout *)
(* ================================================================== *)

Section DebounceFacts.
Import Dashboard Spec.

Lemma last_cons {A} (l : list A) :
  forall x d : A, last (x :: l) d = last l x.
Proof.
  induction l as [|y l IH]; intros x d; [reflexivity|].
  change (last (x :: y :: l) d) with (last (y :: l) d).
  rewrite (IH y d), (IH y x). reflexivity.
Qed.

(** The first event after the widgets are loaded sets the timer. *)
Lemma step_loaded (ws : list Widget) (t : Z) (snapshot : GridLayout) :
  armed (step (loaded ws) (t, snapshot)) t snapshot [].
Proof.
  exists (moveWidgets snapshot ws), 1. split; [discriminate | reflexivity].
Qed.

(** An event while the timer is set: the timer runs first when it is due,
    and is cleared and set anew when it is not. *)
Lemma step_armed (wd : World) (t : Z) (snapshot : GridLayout)
  (calls : list (list LayoutUpdate)) (t' : Z) (snapshot' : GridLayout) :
  armed wd t snapshot calls ->
  armed (step wd (t', snapshot')) t' snapshot'
    (if (500 <=? t' - t)%Z then calls ++ [layoutUpdates snapshot] else calls)%list.
Proof.
  intros (ws & handle & Hhandle & ->).
  exists (moveWidgets snapshot' ws), (S handle). split; [discriminate|].
  destruct handle as [|h]; [contradiction|].
  unfold step, runTimers, handleLayoutChange, isDue, clearTimeout.
  cbn [fst snd timers filter widgets pendingLayoutRef saveTimeoutRef
       nextHandle bulkCalls].
  destruct (Z.leb_spec 500 (t' - t)) as [Hquiet | Hbusy].
  - destruct (Z.leb_spec (t + 500) t') as [_ | Hno]; [|lia].
    cbn. reflexivity.
  - destruct (Z.leb_spec (t + 500) t') as [Hno | _]; [lia|].
    cbn. rewrite Nat.eqb_refl. cbn. reflexivity.
Qed.

(** With the timer set and nothing more to come, the pending snapshot is
    sent. *)
Lemma quiesce_armed (wd : World) (t : Z) (snapshot : GridLayout)
  (calls : list (list LayoutUpdate)) :
  armed wd t snapshot calls ->
  bulkCalls wd = calls
  /\ bulkCalls (quiesce wd) = (calls ++ [layoutUpdates snapshot])%list.
Proof. intros (ws & handle & _ & ->). split; reflexivity. Qed.

(** From an armed dashboard on, the calls made in the end are those made so
    far and one for each quiet period that follows. *)
Lemma run_armed (events : list (Z * GridLayout)) :
  forall wd t snapshot calls,
    armed wd t snapshot calls ->
    bulkCalls (quiesce (run events wd))
    = (calls ++ map layoutUpdates (quietSnapshots ((t, snapshot) :: events)))%list.
Proof.
  induction events as [|[t' snapshot'] events IH];
    intros wd t snapshot calls Harmed.
  - apply quiesce_armed in Harmed as [_ H]. exact H.
  - cbn [run fold_left]. fold (run events (step wd (t', snapshot'))).
    rewrite (IH _ _ _ _ (step_armed _ _ _ _ t' snapshot' Harmed)).
    change (quietSnapshots ((t, snapshot) :: (t', snapshot') :: events))
      with (if (500 <=? t' - t)%Z
            then snapshot :: quietSnapshots ((t', snapshot') :: events)
            else quietSnapshots ((t', snapshot') :: events)).
    destruct (500 <=? t' - t)%Z; [|reflexivity].
    rewrite <- app_assoc. reflexivity.
Qed.

(** While the events keep coming, nothing is sent. *)
Lemma run_burst (events : list (Z * GridLayout)) :
  forall wd t snapshot calls,
    armed wd t snapshot calls ->
    burst ((t, snapshot) :: events) ->
    armed (run events wd) (fst (last events (t, snapshot)))
      (snd (last events (t, snapshot))) calls.
Proof.
  induction events as [|[t' snapshot'] events IH];
    intros wd t snapshot calls Harmed Hburst.
  - exact Harmed.
  - cbn [burst] in Hburst. destruct Hburst as [Hgap Hrest].
    pose proof (step_armed _ _ _ _ t' snapshot' Harmed) as Hstep.
    destruct (Z.leb_spec 500 (t' - t)); [lia|].
    specialize (IH _ _ _ _ Hstep Hrest).
    cbn [run fold_left]. fold (run events (step wd (t', snapshot'))).
    rewrite last_cons. exact IH.
Qed.

End DebounceFacts.

Section DebounceClaims.
Import Dashboard Spec.

(** C3: the calls of [bulkUpdateLayout] made for a sequence of
    layout-change events are, in order, one for each event that is followed
    by 500 ms or more without a further event, and one for the last event,
    each with the snapshot of its event; so a sequence of one event or
    more, each less than 500 ms after the one before, makes no call while
    it lasts and exactly one call after it, with the snapshot of the last
    event. *)
Theorem C3_debounce (ws : list Widget) (events : list (Z * GridLayout)) :
  bulkCalls (quiesce (run events (loaded ws)))
  = map layoutUpdates (quietSnapshots events)
  /\ (events <> [] ->
      burst events ->
      bulkCalls (run events (loaded ws)) = []
      /\ bulkCalls (quiesce (run events (loaded ws)))
         = [layoutUpdates (snd (last events (0%Z, [])))]).
Proof.
  split.
  - destruct events as [|[t snapshot] events]; [reflexivity|].
    cbn [run fold_left]. fold (run events (step (loaded ws) (t, snapshot))).
    apply (run_armed events _ t snapshot []). apply step_loaded.
  - destruct events as [|[t snapshot] events]; [congruence|].
    intros _ Hburst. rewrite last_cons.
    cbn [run fold_left]. fold (run events (step (loaded ws) (t, snapshot))).
    pose proof (run_burst events _ t snapshot [] (step_loaded ws t snapshot)
                  Hburst) as Harmed.
    apply quiesce_armed in Harmed. exact Harmed.
Qed.

(** Three events 120 ms and 360 ms apart: one call, for the third. *)
Lemma C3_debounce_witness :
  bulkCalls
    (run [(0%Z, [mkLayoutItem "a" 0 0 4 3 None None]);
          (120%Z, [mkLayoutItem "a" 1 0 4 3 None None]);
          (480%Z, [mkLayoutItem "a" 2 0 4 3 None None])] (loaded [])) = []
  /\ bulkCalls
       (quiesce
          (run [(0%Z, [mkLayoutItem "a" 0 0 4 3 None None]);
                (120%Z, [mkLayoutItem "a" 1 0 4 3 None None]);
                (480%Z, [mkLayoutItem "a" 2 0 4 3 None None])] (loaded [])))
     = [[mkLayoutUpdate "a" (mkLayout 2 0 4 3 2 2)]].
Proof.
  apply (proj2 (C3_debounce []
                  [(0%Z, [mkLayoutItem "a" 0 0 4 3 None None]);
                   (120%Z, [mkLayoutItem "a" 1 0 4 3 None None]);
                   (480%Z, [mkLayoutItem "a" 2 0 4 3 None None])])).
  - discriminate.
  - simpl. lia.
Defined.

End DebounceClaims.

(* ================================================================== *)
(** * More on the CSV parser *)
(* ================================================================== *)

Section CsvLaws.
Import HtmlWidget Spec Laws.

(** The equations of the loop of [parseLine], one per branch. *)
Lemma parseLine_end (current : string) (inQuotes : bool) (result : list string) :
  parseLine EmptyString current inQuotes result = (result ++ [trim current])%list.
Proof. reflexivity. Qed.

Lemma parseLine_open (rest current : string) (result : list string) :
  parseLine (String DQUOTE rest) current false result
  = parseLine rest current true result.
Proof. reflexivity. Qed.

Lemma parseLine_escape (rest current : string) (result : list string) :
  parseLine (String DQUOTE (String DQUOTE rest)) current true result
  = parseLine rest (current ++ String DQUOTE EmptyString) true result.
Proof. reflexivity. Qed.

Lemma parseLine_close_end (current : string) (result : list string) :
  parseLine (String DQUOTE EmptyString) current true result
  = (result ++ [trim current])%list.
Proof. reflexivity. Qed.

Lemma parseLine_close (next : ascii) (rest current : string)
  (result : list string) :
  Ascii.eqb next DQUOTE = false ->
  parseLine (String DQUOTE (String next rest)) current true result
  = parseLine (String next rest) current false result.
Proof.
  intros H. cbn [parseLine]. rewrite Ascii.eqb_refl, H. reflexivity.
Qed.

Lemma parseLine_comma (rest current : string) (result : list string) :
  parseLine (String COMMA rest) current false result
  = parseLine rest EmptyString false (result ++ [trim current])%list.
Proof. reflexivity. Qed.

Lemma parseLine_char (c : ascii) (rest current : string) (inQuotes : bool)
  (result : list string) :
  Ascii.eqb c DQUOTE = false ->
  Ascii.eqb c COMMA && negb inQuotes = false ->
  parseLine (String c rest) current inQuotes result
  = parseLine rest (current ++ String c EmptyString) inQuotes result.
Proof.
  intros Hq Hc. cbn [parseLine]. rewrite Hq, Hc. reflexivity.
Qed.

(** Whatever the line, the row is the fields found so far, then further
    trimmed texts, the last of which is always there. *)
Lemma parseLine_shape (n : nat) :
  forall line current inQuotes result,
    String.length line <= n ->
    exists fields last,
      parseLine line current inQuotes result
      = (result ++ map trim fields ++ [trim last])%list.
Proof.
  induction n as [|n IH]; intros line current inQuotes result Hlen.
  - destruct line; simpl in Hlen; [|lia].
    exists [], current. reflexivity.
  - destruct line as [|char rest].
    + exists [], current. reflexivity.
    + simpl in Hlen. assert (Hrest : String.length rest <= n) by lia.
      cbn [parseLine].
      destruct (Ascii.eqb char DQUOTE).
      * destruct inQuotes; [|apply IH; exact Hrest].
        destruct rest as [|next rest']; [apply IH; exact Hrest|].
        destruct (Ascii.eqb next DQUOTE); [|apply IH; exact Hrest].
        apply IH. simpl in Hrest. lia.
      * destruct (Ascii.eqb char COMMA && negb inQuotes).
        -- destruct (IH rest EmptyString inQuotes
                       (result ++ [trim current])%list Hrest)
             as (fields & last & E).
           exists (current :: fields), last. rewrite E.
           rewrite <- app_assoc. reflexivity.
        -- apply IH. exact Hrest.
Qed.

Lemma length_split (sep : ascii) (s : string) :
  List.length (split sep s) = S (countChar sep s).
Proof.
  induction s as [|c s IH]; [reflexivity|].
  cbn [split countChar]. destruct (Ascii.eqb c sep).
  - cbn [List.length]. rewrite IH. reflexivity.
  - destruct (split sep s) as [|h t] eqn:E.
    + exfalso. exact (split_not_nil _ _ E).
    + cbn [List.length] in *. rewrite IH. reflexivity.
Qed.

(** The pieces of a split hold characters of the string only. *)
Lemma split_pieces_occurs (c sep : ascii) (s : string) :
  occurs c s = false ->
  Forall (fun piece => occurs c piece = false) (split sep s).
Proof.
  induction s as [|d s IH]; intros H.
  - repeat constructor.
  - cbn [occurs] in H. apply orb_false_elim in H as [Hd Hs].
    specialize (IH Hs). cbn [split]. destruct (Ascii.eqb d sep).
    + constructor; [reflexivity | exact IH].
    + destruct (split sep s) as [|h t].
      * repeat constructor. cbn [occurs]. rewrite Hd. reflexivity.
      * inversion IH; subst. constructor; [|assumption].
        cbn [occurs]. rewrite Hd. assumption.
Qed.

Lemma trimEnd_idempotent (s : string) : trimEnd (trimEnd s) = trimEnd s.
Proof.
  induction s as [|c s IH]; [reflexivity|].
  cbn [trimEnd]. destruct (trimEnd s) as [|d r] eqn:E.
  - destruct (isWhiteSpace c) eqn:Ec; [reflexivity|].
    cbn [trimEnd]. rewrite Ec. reflexivity.
  - cbn [trimEnd] in *. rewrite IH. reflexivity.
Qed.

Lemma trimStart_trimEnd (s : string) :
  trimStart (trimEnd (trimStart s)) = trimEnd (trimStart s).
Proof.
  induction s as [|c s IH]; [reflexivity|].
  cbn [trimStart]. destruct (isWhiteSpace c) eqn:Ec; [exact IH|].
  cbn [trimEnd]. destruct (trimEnd s); rewrite ?Ec; cbn [trimStart];
    rewrite Ec; reflexivity.
Qed.

(** Trimming what is trimmed changes nothing. *)
Lemma trim_idempotent (s : string) : trim (trim s) = trim s.
Proof.
  unfold trim. rewrite trimStart_trimEnd. apply trimEnd_idempotent.
Qed.

(** X1: [parseCSV] always gives at least one row and every row has at least
    one field, so [CSVTable] of a parsed text always renders a table, with a
    header row that has a cell; the body has one row per line feed of the
    trimmed text. *)
Theorem X1_parsed_table_renders (content : string) :
  exists headers rows,
    CSVTable (parseCSV content) = Some (headers, rows)
    /\ headers <> []
    /\ Forall (fun row => row <> []) rows
    /\ List.length rows = countChar LF (trim content).
Proof.
  assert (Hrows : Forall (fun row : list string => row <> []) (parseCSV content)).
  { unfold parseCSV. apply Forall_map, Forall_forall. intros line _.
    destruct (parseLine_shape (String.length line) line EmptyString false []
                (le_n _)) as (fields & last & ->).
    cbn [app]. intros E. apply app_eq_nil in E as [_ E]. discriminate E. }
  assert (Hlen : List.length (parseCSV content) = S (countChar LF (trim content))).
  { unfold parseCSV. rewrite length_map. apply length_split. }
  destruct (parseCSV content) as [|headers rows]; [discriminate Hlen|].
  exists headers, rows. inversion Hrows; subst.
  cbn [List.length] in Hlen. repeat split; auto.
Qed.

(** X2: every field [parseCSV] gives is trimmed: trimming it again gives the
    same field. *)
Theorem X2_fields_are_trimmed (content : string) :
  Forall (Forall (fun field => trim field = field)) (parseCSV content).
Proof.
  unfold parseCSV. apply Forall_map, Forall_forall. intros line _.
  destruct (parseLine_shape (String.length line) line EmptyString false []
              (le_n _)) as (fields & last & ->).
  cbn [app]. apply Forall_app. split.
  - apply Forall_map, Forall_forall. intros f _. apply trim_idempotent.
  - constructor; [apply trim_idempotent | constructor].
Qed.

(** A line without a quote character is cut at its commas. *)
Lemma parseLine_plain (line : string) :
  occurs DQUOTE line = false ->
  forall current result,
    parseLine line current false result
    = (result ++ trim (current ++ hd EmptyString (split COMMA line))
         :: map trim (tl (split COMMA line)))%list.
Proof.
  induction line as [|c line IH]; intros Hq current result.
  - cbn. rewrite append_nil_r. reflexivity.
  - cbn [occurs] in Hq. apply orb_false_elim in Hq as [Hc Hline].
    rewrite Ascii.eqb_sym in Hc. cbn [split].
    destruct (Ascii.eqb c COMMA) eqn:Ecomma.
    + apply Ascii.eqb_eq in Ecomma. subst c.
      rewrite parseLine_comma, (IH Hline).
      destruct (split COMMA line) as [|h t] eqn:E;
        [exfalso; exact (split_not_nil _ _ E)|].
      cbn [hd tl map]. rewrite append_nil_r, <- app_assoc. reflexivity.
    + rewrite parseLine_char by (rewrite ?Ecomma; auto).
      rewrite (IH Hline).
      destruct (split COMMA line) as [|h t] eqn:E;
        [exfalso; exact (split_not_nil _ _ E)|].
      cbn [hd tl]. rewrite append_assoc. reflexivity.
Qed.

Lemma parseLine_plain_row (line : string) :
  occurs DQUOTE line = false ->
  parseLine line EmptyString false [] = map trim (split COMMA line).
Proof.
  intros H. rewrite (parseLine_plain line H).
  destruct (split COMMA line) as [|h t] eqn:E;
    [exfalso; exact (split_not_nil _ _ E)|].
  reflexivity.
Qed.

(** X3: for a text without any quote character, [parseCSV] is the split of
    the trimmed text at line feeds, of each line at commas, and the trimming
    of each piece; a row then has one field more than its line has commas. *)
Theorem X3_plain_text_is_split (content : string) :
  occurs DQUOTE content = false ->
  parseCSV content
  = map (fun line => map trim (split COMMA line)) (split LF (trim content))
  /\ map (@List.length string) (parseCSV content)
     = map (fun line => S (countChar COMMA line)) (split LF (trim content)).
Proof.
  intros H.
  assert (Hlines : Forall (fun line => occurs DQUOTE line = false)
                     (split LF (trim content))).
  { apply split_pieces_occurs, trim_occurs, H. }
  assert (E : parseCSV content
              = map (fun line => map trim (split COMMA line))
                  (split LF (trim content))).
  { unfold parseCSV. apply map_ext_in. intros line Hin.
    rewrite Forall_forall in Hlines. apply parseLine_plain_row, Hlines, Hin. }
  split; [exact E|].
  rewrite E, map_map. apply map_ext. intros line.
  rewrite length_map. apply length_split.
Qed.

Lemma X3_plain_text_is_split_witness :
  parseCSV (" name , age " ++ newline ++ "Ada,36")
  = [["name"; "age"]; ["Ada"; "36"]].
Proof.
  exact (proj1 (X3_plain_text_is_split (" name , age " ++ newline ++ "Ada,36")
                  eq_refl)).
Defined.


Lemma split_app_sep (sep : ascii) (p r : string) :
  occurs sep p = false ->
  split sep (p ++ String sep r) = p :: split sep r.
Proof.
  induction p as [|c p IH]; intros H.
  - cbn. rewrite Ascii.eqb_refl. reflexivity.
  - cbn [occurs] in H. apply orb_false_elim in H as [Hc Hp].
    cbn [append split]. rewrite Hc, (IH Hp). reflexivity.
Qed.

(** Splitting what was joined gives the pieces back. *)
Lemma split_joinWith (sep : ascii) (pieces : list string) :
  pieces <> [] ->
  Forall (fun piece => occurs sep piece = false) pieces ->
  split sep (joinWith sep pieces) = pieces.
Proof.
  induction pieces as [|p rest IH]; intros Hne Hfree; [congruence|].
  inversion Hfree as [|? ? Hp Hrest]; subst.
  destruct rest as [|q rest].
  - cbn [joinWith]. apply split_none. exact Hp.
  - change (joinWith sep (p :: q :: rest))
      with (p ++ String sep (joinWith sep (q :: rest))).
    rewrite (split_app_sep _ _ _ Hp), IH; [reflexivity | discriminate | exact Hrest].
Qed.

Lemma occurs_joinWith (c sep : ascii) (pieces : list string) :
  Ascii.eqb sep c = false ->
  Forall (fun piece => occurs c piece = false) pieces ->
  occurs c (joinWith sep pieces) = false.
Proof.
  intros Hsep. induction 1 as [|p rest Hp _ IH]; [reflexivity|].
  destruct rest as [|q rest]; [exact Hp|].
  change (joinWith sep (p :: q :: rest))
    with (p ++ String sep (joinWith sep (q :: rest))).
  rewrite occurs_append, Hp. cbn [occurs orb]. rewrite Hsep, IH. reflexivity.
Qed.

Lemma occurs_escapeQuotes (c : ascii) (field : string) :
  Ascii.eqb DQUOTE c = false ->
  occurs c (escapeQuotes field) = occurs c field.
Proof.
  intros Hc. induction field as [|d field IH]; [reflexivity|].
  cbn [escapeQuotes]. destruct (Ascii.eqb_spec d DQUOTE) as [->|_].
  - cbn [occurs]. rewrite Hc, IH. reflexivity.
  - cbn [occurs]. rewrite IH. reflexivity.
Qed.

Lemma occurs_quoteField (c : ascii) (field : string) :
  Ascii.eqb DQUOTE c = false ->
  occurs c (quoteField field) = occurs c field.
Proof.
  intros Hc. unfold quoteField. cbn [occurs].
  rewrite Hc, occurs_append, occurs_single, Hc, occurs_escapeQuotes by exact Hc.
  rewrite orb_false_r. reflexivity.
Qed.

Lemma encodeRow_no_line_feed (row : list string) :
  Forall (fun field => occurs LF field = false) row ->
  occurs LF (encodeRow row) = false.
Proof.
  intros H. unfold encodeRow. apply occurs_joinWith; [reflexivity|].
  apply Forall_map. eapply Forall_impl; [|exact H].
  intros field Hf. cbv beta. rewrite occurs_quoteField by reflexivity. exact Hf.
Qed.

Lemma fenced_joinWith (sep : ascii) (pieces : list string) :
  pieces <> [] -> Forall fenced pieces -> fenced (joinWith sep pieces).
Proof.
  induction pieces as [|p rest IH]; intros Hne H; [congruence|].
  inversion H as [|? ? Hp Hrest]; subst.
  destruct rest as [|q rest]; [exact Hp|].
  change (joinWith sep (p :: q :: rest))
    with (p ++ String sep (joinWith sep (q :: rest))).
  destruct Hp as [[body ->] _].
  destruct (IH ltac:(discriminate) Hrest) as [_ [front E]].
  split.
  - eexists. reflexivity.
  - exists (String DQUOTE body ++ String sep front). rewrite E.
    rewrite append_assoc. reflexivity.
Qed.

Lemma fenced_quoteField (field : string) : fenced (quoteField field).
Proof.
  split; [eexists; reflexivity|].
  exists (String DQUOTE (escapeQuotes field)). reflexivity.
Qed.

Lemma fenced_encodeRow (row : list string) : row <> [] -> fenced (encodeRow row).
Proof.
  intros H. apply fenced_joinWith.
  - destruct row; [congruence | discriminate].
  - apply Forall_map, Forall_forall. intros f _. apply fenced_quoteField.
Qed.

Lemma trimEnd_snoc (s : string) (c : ascii) :
  isWhiteSpace c = false ->
  trimEnd (s ++ String c EmptyString) = s ++ String c EmptyString.
Proof.
  intros Hc. induction s as [|d s IH].
  - cbn. rewrite Hc. reflexivity.
  - cbn [append trimEnd]. rewrite IH. destruct s; reflexivity.
Qed.

(** A fenced text has nothing to trim. *)
Lemma trim_fenced (s : string) : fenced s -> trim s = s.
Proof.
  intros [[rest Hstart] [front Hend]]. unfold trim.
  rewrite Hstart at 1. cbn [trimStart].
  change (isWhiteSpace DQUOTE) with false. cbv iota.
  rewrite <- Hstart, Hend. apply trimEnd_snoc. reflexivity.
Qed.

(** Inside the quotes, up to the quote that closes the field. *)
Lemma parseLine_quoted_body (field : string) :
  forall tail current result,
    tail = EmptyString \/ (exists rest, tail = String COMMA rest) ->
    parseLine (escapeQuotes field ++ String DQUOTE tail) current true result
    = parseLine tail (current ++ field) false result.
Proof.
  induction field as [|c field IH]; intros tail current result Htail.
  - cbn [escapeQuotes append]. rewrite append_nil_r.
    destruct Htail as [-> | [rest ->]].
    + reflexivity.
    + apply parseLine_close. reflexivity.
  - cbn [escapeQuotes]. destruct (Ascii.eqb c DQUOTE) eqn:Ec.
    + apply Ascii.eqb_eq in Ec. subst c. cbn [append].
      rewrite parseLine_escape, (IH _ _ _ Htail), append_assoc. reflexivity.
    + cbn [append]. rewrite parseLine_char by (rewrite ?andb_false_r; auto).
      rewrite (IH _ _ _ Htail), append_assoc. reflexivity.
Qed.

(** A written row is read back, field by field. *)
Lemma parseLine_encodeRow (row : list string) :
  row <> [] ->
  forall result,
    parseLine (encodeRow row) EmptyString false result
    = (result ++ map trim row)%list.
Proof.
  induction row as [|f rest IH]; intros Hne result; [congruence|].
  destruct rest as [|g rest].
  - unfold encodeRow, quoteField. cbn [map joinWith].
    rewrite parseLine_open, parseLine_quoted_body by (left; reflexivity).
    reflexivity.
  - change (encodeRow (f :: g :: rest))
      with (quoteField f ++ String COMMA (encodeRow (g :: rest))).
    unfold quoteField. cbn [append]. rewrite append_assoc. cbn [append].
    rewrite parseLine_open, parseLine_quoted_body by (right; eexists; reflexivity).
    rewrite parseLine_comma, IH by discriminate.
    rewrite <- app_assoc. reflexivity.
Qed.

(** X4: writing a table in quoted form and parsing it gives the table back,
    each field trimmed: for rows that each have a field and no line feed in
    a field, quotes, commas and spaces inside the fields come back as they
    were. *)
Theorem X4_quoted_round_trip (rows : list (list string)) :
  rows <> [] ->
  Forall writable rows ->
  parseCSV (encodeTable rows) = map (map trim) rows.
Proof.
  intros Hne Hrows. unfold parseCSV, encodeTable.
  rewrite trim_fenced.
  - rewrite split_joinWith.
    + rewrite map_map. apply map_ext_in. intros row Hin.
      rewrite Forall_forall in Hrows. destruct (Hrows row Hin) as [Hrow _].
      apply (parseLine_encodeRow row Hrow []).
    + destruct rows; [congruence | discriminate].
    + apply Forall_map. eapply Forall_impl; [|exact Hrows].
      intros row [_ Hfields]. apply encodeRow_no_line_feed, Hfields.
  - apply fenced_joinWith.
    + destruct rows; [congruence | discriminate].
    + apply Forall_map. eapply Forall_impl; [|exact Hrows].
      intros row [Hrow _]. apply fenced_encodeRow, Hrow.
Qed.

Lemma X4_quoted_round_trip_witness :
  parseCSV (encodeTable [["name"; "said"]; ["Ada, Countess"; quote ++ "hi" ++ quote]])
  = [["name"; "said"]; ["Ada, Countess"; quote ++ "hi" ++ quote]].
Proof.
  apply (X4_quoted_round_trip
           [["name"; "said"]; ["Ada, Countess"; quote ++ "hi" ++ quote]]).
  - discriminate.
  - repeat constructor; discriminate.
Defined.

Lemma in_firstn {A} (n : nat) (l : list A) (a : A) :
  In a (firstn n l) -> In a l.
Proof.
  intros H. rewrite <- (firstn_skipn n l). apply in_or_app. left. exact H.
Qed.

(** What the comma rule of the classifier asks of the lines it samples. *)
Lemma csv_without_url (content : string) :
  detectContentType content None = csv ->
  2 <= List.length (sampledLines content)
  /\ exists k, 1 <= k
               /\ Forall (fun line => countChar COMMA line = k)
                    (sampledLines content).
Proof.
  unfold detectContentType, sampledLines, slice0, every.
  set (trimmed := trim content).
  set (lines := firstn 5 (split LF trimmed)).
  destruct (startsWith trimmed "<!DOCTYPE" || startsWith trimmed "<!doctype"
            || startsWith trimmed "<html" || startsWith trimmed "<HTML");
    [discriminate|].
  destruct ((2 <=? List.length lines)
            && (forallb (fun c => (c =? hd 0 (map (countChar COMMA) lines))
                                  && (0 <? c))
                  (map (countChar COMMA) lines)
                && (1 <=? hd 0 (map (countChar COMMA) lines)))) eqn:E.
  - intros _. apply andb_prop in E as [Hlen E]. apply andb_prop in E as [Hall Hk].
    apply Nat.leb_le in Hlen. apply Nat.leb_le in Hk.
    split; [exact Hlen|].
    exists (hd 0 (map (countChar COMMA) lines)). split; [exact Hk|].
    rewrite forallb_forall in Hall. apply Forall_forall. intros line Hin.
    specialize (Hall (countChar COMMA line) (in_map _ _ _ Hin)).
    apply andb_prop in Hall as [Heq _]. apply Nat.eqb_eq. exact Heq.
  - match goal with
    | |- (if ?c then _ else _) = _ -> _ => destruct c; [discriminate|]
    end.
    match goal with
    | |- (if ?c then _ else _) = _ -> _ => destruct c; discriminate
    end.
Qed.

(** X5: a text without quote characters that the classifier, with no URL,
    takes for CSV parses to at least two rows, and the rows of its first
    five lines all have the same number of fields, two or more. *)
Theorem X5_csv_rows_are_even (content : string) :
  detectContentType content None = csv ->
  occurs DQUOTE content = false ->
  2 <= List.length (parseCSV content)
  /\ exists k, 1 <= k
               /\ Forall (fun row => List.length row = S k)
                    (firstn 5 (parseCSV content)).
Proof.
  intros Hcsv Hplain.
  destruct (csv_without_url content Hcsv) as (Hlen & k & Hk & Hsame).
  unfold sampledLines in *.
  assert (Hlines : Forall (fun line => occurs DQUOTE line = false)
                     (split LF (trim content))).
  { apply split_pieces_occurs, trim_occurs, Hplain. }
  split.
  - unfold parseCSV. rewrite length_map.
    rewrite length_firstn in Hlen. lia.
  - exists k. split; [exact Hk|].
    unfold parseCSV. rewrite firstn_map. apply Forall_map.
    rewrite Forall_forall in *. intros line Hin.
    rewrite parseLine_plain_row by (apply Hlines; eapply in_firstn; exact Hin).
    rewrite length_map, length_split, (Hsame line Hin). reflexivity.
Qed.

Lemma X5_csv_rows_are_even_witness :
  2 <= List.length (parseCSV twoRows)
  /\ exists k, 1 <= k
               /\ Forall (fun row => List.length row = S k)
                    (firstn 5 (parseCSV twoRows)).
Proof.
  apply X5_csv_rows_are_even; reflexivity.
Defined.

End CsvLaws.

(* ================================================================== *)
(** * More on the classifier and on what the widget shows *)
(* ================================================================== *)

Section WidgetLaws.
Import HtmlWidget Spec Laws.

(** The checks on the URL, then the checks on the content alone. *)
Lemma detectContentType_with_url (content u : string) :
  detectContentType content (Some u)
  = if truthy u then
      if isImageUrl u then image
      else if endsWith (stripQuery u) ".md" || endsWith (stripQuery u) ".markdown"
           then markdown
      else if endsWith (stripQuery u) ".csv" then csv
      else if endsWith (stripQuery u) ".html" || endsWith (stripQuery u) ".htm"
           then html
      else detectContentType content None
    else detectContentType content None.
Proof. reflexivity. Qed.

(** The content alone is never taken for an image, and is always taken for
    something. *)
Lemma detectContentType_content_only (content : string) :
  detectContentType content None <> image
  /\ detectContentType content None <> unknown.
Proof.
  unfold detectContentType.
  repeat match goal with
         | |- context [if ?c then _ else _] => destruct c
         end; split; discriminate.
Qed.

Lemma isImageUrl_truthy (u : string) : isImageUrl u = true -> truthy u = true.
Proof. destruct u; [discriminate | reflexivity]. Qed.

Lemma detectContentType_image (content : string) (url : option string) :
  detectContentType content url = image <->
  exists u, url = Some u /\ isImageUrl u = true.
Proof.
  destruct (detectContentType_content_only content) as [Hnot _].
  split.
  - destruct url as [u|]; [|intros E; contradiction].
    rewrite detectContentType_with_url.
    destruct (truthy u); [|intros E; contradiction].
    destruct (isImageUrl u) eqn:Himg; [intros _; exists u; auto|].
    repeat match goal with
           | |- context [if ?c then _ else _] => destruct c
           end; intros E; try discriminate E; contradiction.
  - intros (u & -> & Himg). rewrite detectContentType_with_url.
    rewrite (isImageUrl_truthy _ Himg), Himg. reflexivity.
Qed.

(** X6: [detectContentType] never answers [unknown], and it answers [image]
    exactly when it is given a URL that [isImageUrl] accepts: the two tests
    for an image that [loadContent] makes cannot disagree. *)
Theorem X6_image_only_by_url (content : string) (url : option string) :
  detectContentType content url <> unknown
  /\ (detectContentType content url = image <->
      exists u, url = Some u /\ isImageUrl u = true).
Proof.
  split; [|apply detectContentType_image].
  destruct (detectContentType_content_only content) as [_ Hnot].
  destruct url as [u|]; [|exact Hnot].
  rewrite detectContentType_with_url.
  repeat match goal with
         | |- context [if ?c then _ else _] => destruct c
         end; try discriminate; exact Hnot.
Qed.

Lemma parseCSV_not_nil (content : string) : parseCSV content <> [].
Proof.
  unfold parseCSV. destruct (split LF (trim content)) eqn:E.
  - exfalso. exact (split_not_nil _ _ E).
  - discriminate.
Qed.

Lemma truthyOpt_some (o : option string) :
  truthyOpt o = true -> exists s, o = Some s /\ truthy s = true.
Proof. destruct o as [s|]; [intros H; exists s; auto | discriminate]. Qed.

(** X7: once a fetch has ended, with a decoded answer or with a thrown value
    whose message is not empty, the widget shows an error text or an
    element with something in it: it is not left loading or blank, whatever
    it showed before. *)
Theorem X7_finished_load_shows_something (o : Outcome) (v : View)
  (name : string) :
  (forall message, o = Rejected (Some message) -> truthy message = true) ->
  showsSomething (body (complete o v) name) = true.
Proof.
  intros Hmessage. destruct o as [result | err].
  - unfold complete, onFulfilled.
    destruct (truthyOpt (wcn_error result)) eqn:Herr.
    { apply truthyOpt_some in Herr as (message & E & Hm).
      unfold body. cbn. rewrite E, Hm. exact Hm. }
    destruct (truthyOpt (wcn_content_url result)
              && isImageUrl (match wcn_content_url result with
                             | Some u => u | None => EmptyString end)) eqn:Himg.
    { apply andb_prop in Himg as [Hurl _].
      apply truthyOpt_some in Hurl as (u & E & Hu).
      unfold body, renderContent. cbn. rewrite E, Hu. reflexivity. }
    destruct (truthyOpt (wcn_html_content result)) eqn:Hhtml; [|reflexivity].
    apply truthyOpt_some in Hhtml as (c & Ec & Hc).
    unfold body, renderContent. cbn. rewrite Ec, Hc.
    destruct (detectContentType c (orUndefined (wcn_content_url result)))
      eqn:Hkind; try reflexivity.
    + destruct (CSVTable (parseCSV c)) eqn:Htable; [reflexivity|].
      exfalso. apply (parseCSV_not_nil c).
      destruct (parseCSV c); [reflexivity | discriminate Htable].
    + exfalso. apply detectContentType_image in Hkind as (u & Eu & Hu).
      unfold orUndefined in Eu.
      destruct (truthyOpt (wcn_content_url result)) eqn:Ht; [|discriminate Eu].
      rewrite Eu in Himg. rewrite Hu in Himg. discriminate Himg.
  - unfold complete, onRejected, body. cbn.
    destruct err as [message|]; [|reflexivity].
    rewrite (Hmessage message eq_refl). apply (Hmessage message eq_refl).
Qed.

Lemma X7_finished_load_shows_something_witness :
  showsSomething
    (body (complete (Fulfilled (mkWidgetContent "w" "W" None (Some "a,b") None))
             (mkView None None unknown None true)) "W") = true.
Proof.
  apply X7_finished_load_shows_something. intros message H. discriminate H.
Defined.

Lemma nth_setFlag (n a : nat) (l : list bool) :
  nth n (setFlag a l) true = if n =? a then true else nth n l true.
Proof.
  revert n a. induction l as [|b l IH]; intros n a.
  - destruct a; cbn; destruct n; cbn; try reflexivity;
      destruct (n =? a); reflexivity.
  - destruct a as [|a], n as [|n]; cbn; try reflexivity. apply IH.
Qed.

(** Every run of the effect but the one React still holds has its flag
    set, and the one it holds has a flag. *)
Lemma reachable_flags (inst : Instance) :
  reachable inst ->
  (forall n, active inst <> Some n -> nth n (cancelled inst) true = true)
  /\ (forall a, active inst = Some a -> a < List.length (cancelled inst)).
Proof.
  assert (Hclean : forall i,
             (forall n, active i <> Some n -> nth n (cancelled i) true = true) ->
             forall n, nth n (cancelled (cleanup i)) true = true).
  { intros i H n. unfold cleanup. destruct (active i) as [a|] eqn:Ea.
    - cbn [cancelled]. rewrite nth_setFlag.
      destruct (Nat.eqb_spec n a) as [_|Hn]; [reflexivity|].
      apply H. congruence.
    - apply H. rewrite ?Ea. discriminate. }
  induction 1 as [| inst _ [IH1 IH2] | inst n o _ [IH1 IH2] | inst _ [IH1 IH2]].
  - split; [intros [|n] _; reflexivity | discriminate].
  - split.
    + intros n Hn. rewrite runEffect_cancelled.
      rewrite runEffect_active, <- cleanup_length in Hn.
      destruct (Nat.lt_ge_cases n (List.length (cancelled (cleanup inst)))).
      * rewrite app_nth1 by assumption. apply Hclean, IH1.
      * apply nth_overflow. rewrite length_app. cbn [List.length].
        assert (n <> List.length (cancelled (cleanup inst))) by congruence.
        lia.
    + intros a Ha. rewrite runEffect_active in Ha. injection Ha as <-.
      rewrite runEffect_cancelled, length_app, cleanup_length.
      cbn [List.length]. lia.
  - unfold settle. destruct (nth n (cancelled inst) true); split; auto.
  - split.
    + intros n _. apply Hclean, IH1.
    + unfold cleanup. destruct (active inst) eqn:E; [discriminate|].
      intros a Ha. congruence.
Qed.

(** X8: in a component that went through any number of runs of its effect,
    ended requests and cleanups, the end of a request of any run but the
    one the effect ran last changes nothing; after the cleanup (the
    component is unmounted) no request changes anything. *)
Theorem X8_only_the_last_run_counts (inst : Instance) :
  reachable inst ->
  (forall n o, active inst <> Some n -> settle n o inst = inst)
  /\ (forall n o, settle n o (cleanup inst) = cleanup inst).
Proof.
  intros Hreach. split.
  - intros n o Hn. unfold settle.
    rewrite (proj1 (reachable_flags inst Hreach) n Hn). reflexivity.
  - intros n o. unfold settle.
    assert (Hc : reachable (cleanup inst)) by (constructor; exact Hreach).
    rewrite (proj1 (reachable_flags _ Hc) n); [reflexivity|].
    unfold cleanup. destruct (active inst) eqn:E; cbn; [discriminate|].
    rewrite E. discriminate.
Qed.

Lemma X8_only_the_last_run_counts_witness :
  settle 1 (Rejected None) (runEffect (runEffect (runEffect mounted)))
  = runEffect (runEffect (runEffect mounted)).
Proof.
  apply (proj1 (X8_only_the_last_run_counts
                  (runEffect (runEffect (runEffect mounted)))
                  (reachable_effect _
                     (reachable_effect _
                        (reachable_effect _ reachable_mounted))))).
  discriminate.
Defined.

Lemma statusString_truthy (status : nat) : truthy (statusString status) = true.
Proof. apply string_of_uint_truthy, to_uint_not_nil. Qed.

(** X9: when the backend answers the content request with a status outside
    200-299, the widget ends with the error text that names the status, no
    content, no URL, the content type it had, and shows the error box. *)
Theorem X9_bad_status_is_shown (status : nat) (reply : WidgetContent + string)
  (v : View) (name : string) :
  ok status = false ->
  complete (awaited (fetchWidgetContent (Answered status reply))) v
  = mkView None None (contentType v)
      (Some ("Failed to fetch widget content: " ++ statusString status)) false
  /\ body (complete (awaited (fetchWidgetContent (Answered status reply))) v) name
     = ErrorBox ("Failed to fetch widget content: " ++ statusString status).
Proof.
  intros Hok. unfold fetchWidgetContent. rewrite Hok. split; reflexivity.
Qed.

Lemma X9_bad_status_is_shown_witness :
  body (complete (awaited (fetchWidgetContent
                             (Answered 503 (inr "Unexpected token"))))
          (mkView (Some "# old") None markdown None true)) "W"
  = ErrorBox "Failed to fetch widget content: 503".
Proof.
  exact (proj2 (X9_bad_status_is_shown 503 (inr "Unexpected token")
                  (mkView (Some "# old") None markdown None true) "W" eq_refl)).
Defined.

End WidgetLaws.

(* ================================================================== *)
(** * More on paths, clicks and the test call *)
(* ================================================================== *)

Section ModalLaws.
Import WidgetConfigModal Spec Laws.

Lemma reaches_trans (a b c : json) (p q : list string) :
  reaches a p b -> reaches b q c -> reaches a (p ++ q) c.
Proof.
  intros Hab Hbc.
  induction Hbc as [| pre entries key child _ IH Hkey
                    | pre items segment i child _ IH Hint Hnth].
  - rewrite app_nil_r. exact Hab.
  - rewrite app_assoc. eapply reaches_key; eassumption.
  - rewrite app_assoc. eapply reaches_index; eassumption.
Qed.

(** What the loop returns, when it is not the empty string, is a string it
    arrived at. *)
Lemma extractLoop_found (keys : list string) :
  forall current s,
    s <> EmptyString ->
    extractLoop keys (Some current) = s ->
    reaches current keys (JString s).
Proof.
  induction keys as [|key keys IH]; intros current s Hs E.
  - destruct current; cbn in E; try congruence. subst. constructor.
  - cbn [extractLoop] in E.
    destruct current as [| b | n | t | items | entries]; cbn in E;
      try (rewrite ?andb_false_r in E; congruence).
    + destruct (parseInt key) as [index|] eqn:Hint; [|congruence].
      destruct (Z.ltb_spec index 0);
        [rewrite extractLoop_undefined in E; congruence|].
      destruct (nth_error items (Z.to_nat index)) as [child|] eqn:Hnth;
        [|rewrite extractLoop_undefined in E; congruence].
      apply (reaches_trans _ child _ [key] keys); [|apply IH; assumption].
      apply (reaches_index _ [] items key (Z.to_nat index) child);
        [constructor | rewrite Z2Nat.id by lia; exact Hint | exact Hnth].
    + destruct (lookup key entries) as [child|] eqn:Hkey;
        [|rewrite extractLoop_undefined in E; congruence].
      apply (reaches_trans _ child _ [key] keys); [|apply IH; assumption].
      apply (reaches_key _ [] entries key child); [constructor | exact Hkey].
Qed.

(** X10: [extractValueFromPath] returns a string that is not empty exactly
    when the segments of the path, keys into objects and integers into
    arrays, lead from the data to that string: it never returns a text that
    is not in the data at that place. *)
Theorem X10_extract_finds_what_is_there (data : json) (path s : string) :
  s <> EmptyString ->
  (extractValueFromPath data path = s <->
   reaches data (split DOT path) (JString s)).
Proof.
  intros Hs. split.
  - apply extractLoop_found. exact Hs.
  - intros H. apply (extract_reached data path (JString s) H).
Qed.

Lemma X10_extract_finds_what_is_there_witness :
  reaches payload ["data"; "url"] (JString "https://x/y.pdf").
Proof.
  apply (proj1 (X10_extract_finds_what_is_there payload "data.url"
                  "https://x/y.pdf" ltac:(discriminate))).
  reflexivity.
Defined.

Lemma arrayRows_clicks (path : string) (l : list json) :
  Forall clicksVisited l ->
  forall index p,
    In p (arrayRows JsonViewerClicks (fun _ _ => []) path l index) ->
    exists sub,
      In (p, sub) (arrayRows JsonViewer (fun p item => [(p, item)]) path l index).
Proof.
  induction 1 as [|item l Hitem _ IH]; intros index p Hin; [contradiction|].
  cbn [arrayRows app] in *.
  apply in_app_or in Hin as [Hin | Hin].
  - destruct (Hitem _ _ Hin) as [[-> _] | [sub Hsub]].
    + exists item. left. reflexivity.
    + exists sub. right. apply in_or_app. left. exact Hsub.
  - destruct (IH _ _ Hin) as [sub Hsub].
    exists sub. right. apply in_or_app. right. exact Hsub.
Qed.

Lemma objectRows_clicks (path : string) (l : list (string * json)) :
  Forall (fun kv => clicksVisited (snd kv)) l ->
  forall p,
    In p (objectRows JsonViewerClicks (fun currentPath _ => [currentPath]) path l) ->
    exists sub,
      In (p, sub) (objectRows JsonViewer (fun p value => [(p, value)]) path l).
Proof.
  induction 1 as [|[key value] l Hvalue _ IH]; intros p Hin; [contradiction|].
  cbn [objectRows app] in *. cbn [snd] in Hvalue.
  destruct Hin as [<- | Hin]; [exists value; left; reflexivity|].
  apply in_app_or in Hin as [Hin | Hin].
  - destruct (Hvalue _ _ Hin) as [[-> _] | [sub Hsub]].
    + exists value. left. reflexivity.
    + exists sub. right. apply in_or_app. left. exact Hsub.
  - destruct (IH _ Hin) as [sub Hsub].
    exists sub. right. apply in_or_app. right. exact Hsub.
Qed.

Lemma JsonViewerClicks_visited : forall current, clicksVisited current.
Proof.
  induction current as [| b | n | s | items IH | entries IH]
    using json_nested_ind; intros path p Hin; try contradiction.
  - cbn [JsonViewerClicks] in Hin. destruct (isUrl s) eqn:Hurl; [|contradiction].
    destruct Hin as [<- | []]. left. split; [reflexivity|]. exists s. auto.
  - right. apply (arrayRows_clicks path items IH 0 p Hin).
  - right. apply (objectRows_clicks path entries IH p Hin).
Qed.

Lemma andb_false_r_if (b : bool) (s : string) :
  (if b && false then s else EmptyString) = EmptyString.
Proof. rewrite andb_false_r. reflexivity. Qed.

(** [handlePathClick], cell by cell. *)
Lemma handlePathClick_cells (st : State) (path : string) :
  handlePathClick st path
  = mkState (name st) (apiEndpoint st) (apiKey st) (apiKeyHeader st)
      (reportId st) path
      (if isUrl (extractValueFromPath (testData st) path)
       then extractValueFromPath (testData st) path
       else contentUrl st)
      (saving st) (testing st) (testResult st) (testError st) (testData st).
Proof.
  unfold handlePathClick.
  destruct (truthyValue (Some (testData st))) eqn:Htruthy.
  - cbv zeta. rewrite isUrl_truthy.
    destruct (isUrl (extractValueFromPath (testData st) path));
      destruct st; reflexivity.
  - rewrite (extract_falsy _ _ Htruthy). destruct st; reflexivity.
Qed.

(** X11: every path the viewer binds to a click is the path of a key or an
    index it shows, with one exception: a response that is a single string
    looking like a URL is bound to the empty path, and the click on it sets
    the path to the empty string and captures nothing. *)
Theorem X11_clicks_are_shown_paths (data : json) (p : string) (st : State) :
  In p (JsonViewerClicks data EmptyString) ->
  (exists sub, In (p, sub) (JsonViewer data EmptyString))
  \/ (p = EmptyString
      /\ (exists s, data = JString s /\ isUrl s = true)
      /\ responseUrlPath (handlePathClick (setTestData st data) p) = EmptyString
      /\ contentUrl (handlePathClick (setTestData st data) p) = contentUrl st).
Proof.
  intros Hin.
  destruct (JsonViewerClicks_visited data _ _ Hin) as [[-> (s & -> & Hs)] | H];
    [right | left; exact H].
  split; [reflexivity|]. split; [exists s; auto|].
  assert (E : extractValueFromPath (JString s) EmptyString = EmptyString).
  { unfold extractValueFromPath. cbn. apply andb_false_r_if. }
  rewrite handlePathClick_cells.
  destruct st; cbn [setTestData testData responseUrlPath contentUrl].
  rewrite E. split; reflexivity.
Qed.

Lemma X11_clicks_are_shown_paths_witness :
  (exists sub, In ("data.url", sub) (JsonViewer payload EmptyString))
  \/ ("data.url" = EmptyString
      /\ (exists s, payload = JString s /\ isUrl s = true)
      /\ responseUrlPath
           (handlePathClick
              (setTestData
                 (mkState EmptyString EmptyString EmptyString EmptyString
                    EmptyString "url" EmptyString false false None None JNull)
                 payload) "data.url") = EmptyString
      /\ contentUrl
           (handlePathClick
              (setTestData
                 (mkState EmptyString EmptyString EmptyString EmptyString
                    EmptyString "url" EmptyString false false None None JNull)
                 payload) "data.url")
         = contentUrl
             (mkState EmptyString EmptyString EmptyString EmptyString
                EmptyString "url" EmptyString false false None None JNull)).
Proof.
  apply X11_clicks_are_shown_paths. simpl. auto.
Defined.

(** X12: with a response stored in which no key holds a dot and no
    top-level key is empty, the click on any key or index path the viewer
    shows sets the path and captures exactly the value shown under it when
    that is a string starting with [http://] or [https://]; under any other
    value the captured URL stays. *)
Theorem X12_click_captures_shown_url (data : json) (st : State)
  (p : string) (sub : json) :
  wellFormed data = true ->
  dotFreeKeys data = true ->
  topKeysNonEmpty data = true ->
  In (p, sub) (JsonViewer data EmptyString) ->
  responseUrlPath (handlePathClick (setTestData st data) p) = p
  /\ contentUrl (handlePathClick (setTestData st data) p)
     = if isUrl (textOf sub) then textOf sub else contentUrl st.
Proof.
  intros Hwf Hdot Htop Hin.
  assert (E : extractValueFromPath data p = textOf sub).
  { apply extract_reached.
    apply (JsonViewer_sound data data EmptyString []); auto.
    - constructor.
    - left. split; reflexivity. }
  rewrite handlePathClick_cells.
  destruct st; cbn [setTestData testData responseUrlPath contentUrl].
  rewrite E. split; reflexivity.
Qed.

Lemma X12_click_captures_shown_url_witness :
  contentUrl
    (handlePathClick
       (setTestData
          (mkState EmptyString EmptyString EmptyString EmptyString EmptyString
             "url" "http://old" false false None None JNull)
          payloadWithNumber) "data.url") = "https://x/y.pdf".
Proof.
  apply (X12_click_captures_shown_url payloadWithNumber
           (mkState EmptyString EmptyString EmptyString EmptyString EmptyString
              "url" "http://old" false false None None JNull)
           "data.url" (JString "https://x/y.pdf") eq_refl eq_refl eq_refl).
  simpl. auto.
Defined.

(** X13: after any sequence of path clicks the stored response is the
    same, the path is the one clicked last, and the captured URL is the one
    from before or a string that starts with [http://] or [https://];
    clicking a path a second time changes nothing. *)
Theorem X13_clicks_keep_the_capture_clean (paths : list string) (st : State) :
  testData (fold_left handlePathClick paths st) = testData st
  /\ responseUrlPath (fold_left handlePathClick paths st)
     = last paths (responseUrlPath st)
  /\ (contentUrl (fold_left handlePathClick paths st) = contentUrl st
      \/ isUrl (contentUrl (fold_left handlePathClick paths st)) = true)
  /\ (forall p, handlePathClick (handlePathClick st p) p = handlePathClick st p).
Proof.
  split; [|split; [|split]].
  - revert st. induction paths as [|p paths IH]; intros st; [reflexivity|].
    cbn [fold_left]. rewrite IH, handlePathClick_cells. reflexivity.
  - revert st. induction paths as [|p paths IH]; intros st; [reflexivity|].
    cbn [fold_left]. rewrite IH, last_cons, handlePathClick_cells. reflexivity.
  - revert st. induction paths as [|p paths IH]; intros st; [left; reflexivity|].
    cbn [fold_left]. destruct (IH (handlePathClick st p)) as [E | E];
      [|right; exact E].
    rewrite E, handlePathClick_cells. cbn [contentUrl].
    destruct (isUrl (extractValueFromPath (testData st) p)) eqn:Hurl;
      [right; exact Hurl | left; reflexivity].
  - intros p. rewrite (handlePathClick_cells (handlePathClick st p)).
    rewrite handlePathClick_cells.
    cbn [name apiEndpoint apiKey apiKeyHeader reportId contentUrl saving
         testing testResult testError testData].
    destruct (isUrl (extractValueFromPath (testData st) p)); reflexivity.
Qed.

Lemma getRequestBody_empty (st : State) :
  getRequestBody st = EmptyString <-> trim (reportId st) = EmptyString.
Proof.
  unfold getRequestBody. destruct (trim (reportId st)); cbn [truthy negb].
  - split; reflexivity.
  - split; discriminate.
Qed.

(** X14: a test with an endpoint makes one request, which carries the key
    only when one is typed, a body only when the report id is not blank,
    and a header name that is never empty. However the request ends, the
    test is over afterwards and the form is as it was; the error is set
    exactly when the call threw or the reply carries an error text; the
    result is unset exactly then or when the reply carries no data, so the
    two are never both set; and while the result is unset no path click
    captures a URL. *)
Theorem X14_test_call (stringify : json -> string) (st : State)
  (p : Promise TestApiResult) :
  apiEndpoint st <> EmptyString ->
  exists request,
    handleTestApiBegin st = (setTest st true None None JNull, Some request)
    /\ (tb_api_key request = None <-> apiKey st = EmptyString)
    /\ (tb_request_body request = None <-> trim (reportId st) = EmptyString)
    /\ tb_api_key_header request <> EmptyString
    /\ testing (handleTestApiEnd stringify p (fst (handleTestApiBegin st))) = false
    /\ sameForm st (handleTestApiEnd stringify p (fst (handleTestApiBegin st)))
    /\ (testError (handleTestApiEnd stringify p (fst (handleTestApiBegin st)))
        <> None
        <-> failed p = true)
    /\ (testResult (handleTestApiEnd stringify p (fst (handleTestApiBegin st)))
        = None
        <-> failed p = true \/ withoutData p = true)
    /\ (testResult (handleTestApiEnd stringify p (fst (handleTestApiBegin st)))
        <> None ->
        testError (handleTestApiEnd stringify p (fst (handleTestApiBegin st)))
        = None)
    /\ (testResult (handleTestApiEnd stringify p (fst (handleTestApiBegin st)))
        = None ->
        forall path,
          contentUrl
            (handlePathClick
               (handleTestApiEnd stringify p (fst (handleTestApiBegin st)))
               path)
          = contentUrl st).
Proof.
  intros Hendpoint. unfold handleTestApiBegin.
  destruct (apiEndpoint st) as [|c endpoint] eqn:E; [congruence|].
  cbn [truthy negb fst]. eexists. split; [reflexivity|].
  cbn [tb_api_key tb_request_body tb_api_key_header testWidgetApiBody].
  split; [|split; [|split]].
  - unfold orUndefined. destruct (apiKey st); cbn; split; congruence.
  - rewrite <- getRequestBody_empty. unfold orUndefined.
    destruct (getRequestBody st); cbn; split; congruence.
  - destruct (apiKeyHeader st); cbn; discriminate.
  - unfold handleTestApiEnd, testSucceeded, failed, withoutData, sameForm.
    destruct p as [[data error] | err]; cbn [tar_error tar_data].
    + destruct error as [message|]; [destruct (truthy message)|];
        destruct data as [d|];
        cbn; repeat split; intros; try discriminate; try congruence; auto;
        try (exfalso; intuition congruence).
    + cbn; repeat split; intros; try discriminate; try congruence; auto.
Qed.

(** A reply with status 200 and a body without [data] and without [error]:
    neither the result nor the error is set afterwards. *)
Example test_reply_without_data :
  testResult
    (handleTestApiEnd (fun _ => "{}")
       (testWidgetApi (Answered 200 (inl (mkTestApiResult None None))))
       (fst (handleTestApiBegin
               (mkState "Report" "http://h/run" EmptyString "X-API-Key"
                  EmptyString "url" EmptyString false false None None JNull))))
  = None
  /\ testError
       (handleTestApiEnd (fun _ => "{}")
          (testWidgetApi (Answered 200 (inl (mkTestApiResult None None))))
          (fst (handleTestApiBegin
                  (mkState "Report" "http://h/run" EmptyString "X-API-Key"
                     EmptyString "url" EmptyString false false None None JNull))))
     = None.
Proof. split; reflexivity. Qed.

Lemma X14_test_call_witness :
  testError
    (handleTestApiEnd (fun _ => "{}")
       (testWidgetApi (Answered 500 (inr "no body")))
       (fst (handleTestApiBegin
               (mkState "Report" "http://h/run" EmptyString "X-API-Key" " "
                  "url" "http://old" false false (Some "{}") None JNull))))
  <> None.
Proof.
  destruct (X14_test_call (fun _ => "{}")
              (mkState "Report" "http://h/run" EmptyString "X-API-Key" " "
                 "url" "http://old" false false (Some "{}") None JNull)
              (testWidgetApi (Answered 500 (inr "no body")))
              ltac:(discriminate))
    as (request & _ & _ & _ & _ & _ & _ & Herror & _).
  apply Herror. reflexivity.
Defined.

End ModalLaws.

(* ================================================================== *)
(** * More on the dashboard *)
(* ================================================================== *)

Section DashboardLaws.
Import Dashboard Spec Laws.

Lemma Forall2_map_self {A} (R : A -> A -> Prop) (f : A -> A) (l : list A) :
  (forall a, R a (f a)) -> Forall2 R l (map f l).
Proof. intros H. induction l; constructor; auto. Qed.

(** X15: a layout change moves widgets and does nothing else: the list
    keeps its length and order, every widget keeps its id, its
    configuration and its minimal size, a widget with a grid item gets the
    place of the first item with its id, and a widget without one stays as
    it is. *)
Theorem X15_layout_change_only_moves (now : Z) (newLayout : GridLayout)
  (wd : World) :
  Forall2 (movedTo newLayout) (widgets wd)
    (widgets (handleLayoutChange now newLayout wd)).
Proof.
  cbn [handleLayoutChange widgets]. generalize (widgets wd) as ws. intros ws.
  unfold moveWidgets. apply Forall2_map_self. intros a. unfold movedTo.
  destruct (findItem newLayout (id a)) as [item|].
  - split; [|repeat split]. unfold sameButPlace. cbn. repeat split.
  - split; [|reflexivity]. unfold sameButPlace. repeat split.
Qed.

(** The grid item of a widget is found under its id when no other widget
    has that id. *)
Lemma findItem_layoutOf (ws : list Widget) (a : Widget) :
  NoDup (map id ws) -> In a ws ->
  findItem (layoutOf ws) (id a)
  = Some (mkLayoutItem (id a) (x (layout a)) (y (layout a)) (w (layout a))
            (h (layout a)) (Some (minW (layout a))) (Some (minH (layout a)))).
Proof.
  induction ws as [|b ws IH]; intros Hnodup Hin; [contradiction|].
  cbn [map] in Hnodup. inversion Hnodup as [|? ? Hfresh Hrest]; subst.
  unfold findItem, layoutOf. cbn [map find li_i].
  destruct Hin as [-> | Hin].
  - rewrite String.eqb_refl. reflexivity.
  - destruct (String.eqb_spec (id b) (id a)) as [E | _].
    + exfalso. apply Hfresh. rewrite E. apply in_map. exact Hin.
    + apply (IH Hrest Hin).
Qed.

(** X16: when the grid reports the very layout the dashboard gave it, and
    no two widgets share an id, the widgets stay exactly as they are; and
    what is then sent to the backend is the id and the stored layout of
    each widget, minimal sizes included. *)
Theorem X16_own_layout_changes_nothing (ws : list Widget) :
  NoDup (map id ws) ->
  moveWidgets (layoutOf ws) ws = ws
  /\ layoutUpdates (layoutOf ws)
     = map (fun a => mkLayoutUpdate (id a) (layout a)) ws.
Proof.
  intros Hnodup. split.
  - unfold moveWidgets. transitivity (map (fun a : Widget => a) ws);
      [|apply map_id].
    apply map_ext_in. intros a Hin.
    rewrite (findItem_layoutOf ws a Hnodup Hin).
    destruct a as [? ? ? ? ? ? ? ? [? ? ? ? ? ?] ? ? ?]. reflexivity.
  - unfold layoutUpdates, layoutOf. rewrite map_map. apply map_ext.
    intros a. destruct a as [? ? ? ? ? ? ? ? [? ? ? ? ? ?] ? ? ?]. reflexivity.
Qed.

Lemma X16_own_layout_changes_nothing_witness :
  moveWidgets
    (layoutOf [mkWidget "a" "A" "http://h" "k***" "X-API-Key" EmptyString "url"
                 EmptyString (mkLayout 0 0 4 3 2 2) true "t" "t";
               mkWidget "b" "B" "http://h" "k***" "X-API-Key" EmptyString "url"
                 EmptyString (mkLayout 4 0 4 3 3 1) true "t" "t"])
    [mkWidget "a" "A" "http://h" "k***" "X-API-Key" EmptyString "url"
       EmptyString (mkLayout 0 0 4 3 2 2) true "t" "t";
     mkWidget "b" "B" "http://h" "k***" "X-API-Key" EmptyString "url"
       EmptyString (mkLayout 4 0 4 3 3 1) true "t" "t"]
  = [mkWidget "a" "A" "http://h" "k***" "X-API-Key" EmptyString "url"
       EmptyString (mkLayout 0 0 4 3 2 2) true "t" "t";
     mkWidget "b" "B" "http://h" "k***" "X-API-Key" EmptyString "url"
       EmptyString (mkLayout 4 0 4 3 3 1) true "t" "t"].
Proof.
  apply (proj1 (X16_own_layout_changes_nothing
                  [mkWidget "a" "A" "http://h" "k***" "X-API-Key" EmptyString
                     "url" EmptyString (mkLayout 0 0 4 3 2 2) true "t" "t";
                   mkWidget "b" "B" "http://h" "k***" "X-API-Key" EmptyString
                     "url" EmptyString (mkLayout 4 0 4 3 3 1) true "t" "t"]
                  ltac:(repeat constructor; simpl; intuition discriminate))).
Defined.

(** The timer stays set, for the latest event, whatever comes. *)
Lemma run_keeps_armed (events : list (Z * GridLayout)) :
  forall wd t snapshot calls,
    armed wd t snapshot calls ->
    exists calls',
      armed (run events wd) (fst (last events (t, snapshot)))
        (snd (last events (t, snapshot))) calls'.
Proof.
  induction events as [|[t' snapshot'] events IH];
    intros wd t snapshot calls Harmed.
  - exists calls. exact Harmed.
  - cbn [run fold_left]. fold (run events (step wd (t', snapshot'))).
    rewrite last_cons.
    exact (IH _ _ _ _ (step_armed _ _ _ _ t' snapshot' Harmed)).
Qed.

Lemma tidy_loaded (ws : list Widget) : tidy (loaded ws).
Proof. split; [discriminate | left; split; reflexivity]. Qed.

(** Time passes: a timer that is due runs, sends what is pending and
    leaves nothing pending. *)
Lemma tidy_runTimers (now : Z) (wd : World) : tidy wd -> tidy (runTimers now wd).
Proof.
  destruct wd as [ws pending ref ts next calls]. unfold tidy.
  cbn [nextHandle timers pendingLayoutRef saveTimeoutRef].
  intros [Hnext [[-> ->] | (handle & due & snapshot & Hh & -> & -> & ->)]].
  - split; [exact Hnext | left; split; reflexivity].
  - unfold runTimers, isDue.
    cbn [timers filter snd widgets pendingLayoutRef saveTimeoutRef
         nextHandle bulkCalls].
    destruct (due <=? now)%Z; cbn.
    + split; [exact Hnext | left; split; reflexivity].
    + split; [exact Hnext|]. right. exists handle, due, snapshot. auto.
Qed.

Lemma tidy_quiesce (wd : World) : tidy wd -> tidy (quiesce wd).
Proof.
  destruct wd as [ws pending ref ts next calls]. unfold tidy.
  cbn [nextHandle timers pendingLayoutRef saveTimeoutRef].
  intros [Hnext [[-> ->] | (handle & due & snapshot & Hh & -> & -> & ->)]];
    cbn; (split; [exact Hnext | left; split; reflexivity]).
Qed.

(** A layout change clears the timer that is set, if one is, and sets one. *)
Lemma tidy_handleLayoutChange (now : Z) (newLayout : GridLayout) (wd : World) :
  tidy wd -> tidy (handleLayoutChange now newLayout wd).
Proof.
  destruct wd as [ws pending ref ts next calls]. unfold tidy.
  cbn [nextHandle timers pendingLayoutRef saveTimeoutRef].
  intros [Hnext Hstate].
  unfold handleLayoutChange.
  cbn [nextHandle timers pendingLayoutRef saveTimeoutRef widgets bulkCalls].
  split; [discriminate|]. right.
  exists next, (now + 500)%Z, newLayout.
  split; [exact Hnext|]. split; [reflexivity|]. split; [|reflexivity].
  destruct Hstate as [[-> ->] | (handle & due & snapshot & Hh & -> & -> & ->)].
  - destruct ref as [handle|]; [destruct (negb (handle =? 0))|]; reflexivity.
  - destruct handle as [|h]; [contradiction|].
    cbn. rewrite Nat.eqb_refl. reflexivity.
Qed.

Lemma reachableWorld_tidy (ws : list Widget) (wd : World) :
  reachableWorld ws wd -> tidy wd.
Proof.
  induction 1 as [| wd ev _ IH | wd now _ IH | wd _ IH].
  - apply tidy_loaded.
  - unfold step. apply tidy_handleLayoutChange, tidy_runTimers, IH.
  - apply tidy_runTimers, IH.
  - apply tidy_quiesce, IH.
Qed.

(** X17: at any moment, after any layout-change events and any passing of
    time in which the timers that are due run, at most one timer is set; a
    snapshot is pending exactly while a timer is set; and the timer that is
    set is the one whose handle [saveTimeoutRef] holds, so that the next
    change clears it. *)
Theorem X17_one_timer_at_most (ws : list Widget) (wd : World) :
  reachableWorld ws wd ->
  List.length (timers wd) <= 1
  /\ (pendingLayoutRef wd = None <-> timers wd = [])
  /\ (timers wd <> [] ->
      exists handle due,
        timers wd = [(handle, due)] /\ saveTimeoutRef wd = Some handle).
Proof.
  intros Hreach.
  destruct (reachableWorld_tidy ws wd Hreach)
    as [_ [[Ht Hp] | (handle & due & snapshot & _ & Href & Ht & Hp)]];
    rewrite Ht, Hp.
  - cbn. repeat split; auto. intros H. contradiction.
  - cbn. repeat split; auto; try discriminate.
    intros _. exists handle, due. auto.
Qed.

(** An event at 0 ms and the time 600 ms: the timer has run, nothing is set
    and nothing is pending. *)
Lemma X17_one_timer_at_most_witness :
  pendingLayoutRef
    (runTimers 600
       (step (loaded []) (0%Z, [mkLayoutItem "a" 1 0 4 3 None None])))
  = None
  <-> timers
        (runTimers 600
           (step (loaded []) (0%Z, [mkLayoutItem "a" 1 0 4 3 None None])))
      = [].
Proof.
  apply (X17_one_timer_at_most []
           (runTimers 600
              (step (loaded []) (0%Z, [mkLayoutItem "a" 1 0 4 3 None None])))).
  apply world_time, world_event, world_loaded.
Defined.

(** X18: the update of a widget keeps the ids of the list in their order;
    deleting by id leaves no widget with that id; and deleting a widget
    that was just added under a new id gives the list from before. *)
Theorem X18_widget_list_updates (ws : list Widget) (updated created : Widget)
  (wid : string) :
  map id (replaceWidget updated ws) = map id ws
  /\ ~ In wid (map id (removeWidget wid ws))
  /\ (~ In (id created) (map id ws) ->
      removeWidget (id created) (appendWidget created ws) = ws).
Proof.
  split; [|split].
  - unfold replaceWidget. rewrite map_map. apply map_ext. intros a.
    destruct (String.eqb_spec (id a) (id updated)) as [E | _]; auto.
  - unfold removeWidget. intros Hin. apply in_map_iff in Hin as (a & Ea & Ha).
    apply filter_In in Ha as [_ Ha]. rewrite Ea, String.eqb_refl in Ha.
    discriminate Ha.
  - intros Hfresh. unfold removeWidget, appendWidget.
    rewrite filter_app. cbn [filter]. rewrite String.eqb_refl. cbn [negb].
    rewrite app_nil_r. apply forallb_filter_id. apply forallb_forall.
    intros a Ha. apply negb_true_iff, String.eqb_neq. intros E.
    apply Hfresh. rewrite <- E. apply in_map. exact Ha.
Qed.

Lemma X18_widget_list_updates_witness :
  removeWidget "b"
    (appendWidget
       (mkWidget "b" "B" "http://h" "k***" "X-API-Key" EmptyString "url"
          EmptyString (mkLayout 4 0 4 3 3 1) true "t" "t")
       [mkWidget "a" "A" "http://h" "k***" "X-API-Key" EmptyString "url"
          EmptyString (mkLayout 0 0 4 3 2 2) true "t" "t"])
  = [mkWidget "a" "A" "http://h" "k***" "X-API-Key" EmptyString "url"
       EmptyString (mkLayout 0 0 4 3 2 2) true "t" "t"].
Proof.
  apply (proj2 (proj2 (X18_widget_list_updates
                         [mkWidget "a" "A" "http://h" "k***" "X-API-Key"
                            EmptyString "url" EmptyString
                            (mkLayout 0 0 4 3 2 2) true "t" "t"]
                         (mkWidget "b" "B" "http://h" "k***" "X-API-Key"
                            EmptyString "url" EmptyString
                            (mkLayout 4 0 4 3 3 1) true "t" "t")
                         (mkWidget "b" "B" "http://h" "k***" "X-API-Key"
                            EmptyString "url" EmptyString
                            (mkLayout 4 0 4 3 3 1) true "t" "t")
                         "b"))).
  simpl. intuition discriminate.
Defined.

Lemma widgets_timeouts {A} (due : list A) :
  forall wd,
    widgets (fold_left (fun acc _ => onTimeout acc) due wd) = widgets wd.
Proof.
  induction due as [|d due IH]; intros wd; [reflexivity|].
  cbn [fold_left]. rewrite IH. unfold onTimeout.
  destruct (pendingLayoutRef wd); reflexivity.
Qed.

Lemma widgets_step (wd : World) (ev : Z * GridLayout) :
  widgets (step wd ev) = moveWidgets (snd ev) (widgets wd).
Proof.
  unfold step, runTimers. cbn [handleLayoutChange widgets].
  rewrite widgets_timeouts. reflexivity.
Qed.

Lemma run_snoc (events : list (Z * GridLayout)) (ev : Z * GridLayout)
  (wd : World) :
  run (events ++ [ev]) wd = step (run events wd) ev.
Proof. unfold run. rewrite fold_left_app. reflexivity. Qed.

(** After a last event the timer is set for it. *)
Lemma run_snoc_armed (ws : list Widget) (events : list (Z * GridLayout))
  (ev : Z * GridLayout) :
  exists calls,
    armed (run (events ++ [ev]) (loaded ws)) (fst ev) (snd ev) calls.
Proof.
  destruct events as [|[t snapshot] events].
  - exists []. destruct ev as [t snapshot]. apply step_loaded.
  - cbn [app run fold_left].
    fold (run (events ++ [ev]) (step (loaded ws) (t, snapshot))).
    destruct (run_keeps_armed (events ++ [ev]) _ t snapshot []
                (step_loaded ws t snapshot)) as [calls H].
    rewrite last_last in H. exists calls. exact H.
Qed.

(** X19: when the events are over and the timer has run, the last call of
    [bulkUpdateLayout] carries the snapshot of the last event, and for
    every widget that snapshot has an item for, the place shown on the
    dashboard is the place sent to the backend: the call has an entry with
    the id of the widget and its place on the screen. *)
Theorem X19_screen_and_backend_agree (ws : list Widget)
  (events : list (Z * GridLayout)) (ev : Z * GridLayout) :
  (exists earlier,
      bulkCalls (quiesce (run (events ++ [ev]) (loaded ws)))
      = (earlier ++ [layoutUpdates (snd ev)])%list)
  /\ Forall (fun a =>
               match findItem (snd ev) (id a) with
               | Some item =>
                   placedAt item a
                   /\ In (mkLayoutUpdate (id a)
                            (mkLayout (x (layout a)) (y (layout a))
                               (w (layout a)) (h (layout a))
                               (orElse (li_minW item) 2)
                               (orElse (li_minH item) 2)))
                        (layoutUpdates (snd ev))
               | None => True
               end)
       (widgets (quiesce (run (events ++ [ev]) (loaded ws)))).
Proof.
  split.
  - destruct (run_snoc_armed ws events ev) as [calls H].
    exists calls. apply (quiesce_armed _ _ _ _ H).
  - unfold quiesce. rewrite widgets_timeouts. cbn [widgets].
    rewrite run_snoc, widgets_step. unfold moveWidgets.
    apply Forall_map, Forall_forall. intros b _.
    destruct (findItem (snd ev) (id b)) as [item|] eqn:Hfind.
    + cbn [id layout x y w h]. rewrite Hfind. split; [repeat split|].
      unfold findItem in Hfind. apply find_some in Hfind as [Hin Hid].
      apply String.eqb_eq in Hid. rewrite <- Hid.
      unfold layoutUpdates.
      apply (in_map (fun item0 =>
                       mkLayoutUpdate (li_i item0)
                         (mkLayout (li_x item0) (li_y item0) (li_w item0)
                            (li_h item0) (orElse (li_minW item0) 2)
                            (orElse (li_minH item0) 2)))
               _ _ Hin).
    + rewrite Hfind. exact I.
Qed.

End DashboardLaws.
